(** * MQTT Vacuum Camera: firmware classification, go-to dispatch,
      the broker connector and the option merge

    A shallow embedding of
    - [custom_components/mqtt_vacuum_camera/common.py]
      ([is_rand256_vacuum], [from_device_ids_to_entity_ids],
      [get_vacuum_mqtt_topic], [get_device_info_from_entity_id],
      [generate_service_data_go_to], [update_options]),
    - [custom_components/valetudo_vacuum_camera/common.py] ([update_options]),
    - [custom_components/valetudo_vacuum_camera/valetudo/connector.py]
      ([ValetudoConnector.on_message_callback], [update_data], the accessors).

    Conventions.  A Python [str] is a Rocq [string] holding its UTF-8
    encoding; [bytes] is [list Byte.byte]; a [dict] used as a map is a
    [gmap]; a dict literal whose shape matters (the command payload) is an
    association list in source order; a Python exception is a value of
    [exn] carried by the result type [res]. *)

(** Also embedded, for the properties after those of the specification:
    [get_vacuum_unique_id_from_mqtt_topic], [extract_file_name] and
    [build_full_topic_set] of [mqtt_vacuum_camera/common.py], and
    [ValetudoConnector.save_payload] of [valetudo/connector.py], with runs
    of messages and takes over a connector. *)

From Stdlib Require Import ZArith Strings.Ascii Strings.String Strings.Byte.
From Stdlib Require Import Floats.SpecFloat.
From stdpp Require Import base option list strings gmap.

Local Open Scope Z_scope.

(** ** Python exceptions and results *)

Inductive exn : Type :=
  | AttributeError
  | TypeError
  | ValueError
  | OverflowError
  | IndexError
  | KeyError (key : string)
  | UnicodeDecodeError.

Inductive res (A : Type) : Type :=
  | Ok (a : A)
  | Raise (e : exn).
Arguments Ok {A} a.
Arguments Raise {A} e.

(** Sequencing: the first exception raised ends the computation.  The
    instances give [res] the notation [x ← m; k] of stdpp's monads. *)
Global Instance res_ret : MRet res := λ A a, Ok a.
Global Instance res_bind : MBind res := λ A B k m,
  match m with
  | Ok a => k a
  | Raise e => Raise e
  end.

(** ** Strings *)

Module Str.

(** [c.lower()] on one byte of the encoding: ASCII capitals become small
    letters.  The bytes of a multi-byte sequence, all above 127, are left
    as they are: Python lower-cases such characters to non-ASCII text, or
    (U+0130, U+212A) to text starting with [i] or [k], so the only use
    made of [lower], a test for an ASCII prefix without [i] and [k], reads
    the same. *)
Definition lower_ascii (c : ascii) : ascii :=
  let n := N_of_ascii c in
  if ((65 <=? n) && (n <=? 90))%N then ascii_of_N (n + 32) else c.

(** [s.lower()] *)
Fixpoint lower (s : string) : string :=
  match s with
  | EmptyString => EmptyString
  | String c s' => String (lower_ascii c) (lower s')
  end.

(** [s.startswith(p)] *)
Fixpoint startswith (s p : string) {struct p} : bool :=
  match p, s with
  | EmptyString, _ => true
  | String _ _, EmptyString => false
  | String a p', String b s' =>
      if Ascii.eqb a b then startswith s' p' else false
  end.

(** Truthiness of a string: [bool(s)]. *)
Definition truthy (s : string) : bool :=
  match s with
  | EmptyString => false
  | String _ _ => true
  end.

(** [str(o)] for an optional string: [str(None)] is the text [None]. *)
Definition of_option (o : option string) : string :=
  match o with
  | Some s => s
  | None => "None"
  end.

(** A case-insensitive prefix: some leading part of [s] equals [p] once
    both are lower-cased. *)
Definition begins_ci (p s : string) : Prop :=
  ∃ hd tl : string, s = hd +:+ tl ∧ lower hd = lower p.

(** [c in s] for a character. *)
Fixpoint contains (c : ascii) (s : string) : bool :=
  match s with
  | EmptyString => false
  | String b s' => Ascii.eqb b c || contains c s'
  end.

(** Text made of ASCII characters only; on such text [lower] is Python's
    [str.lower] character by character. *)
Fixpoint is_ascii (s : string) : bool :=
  match s with
  | EmptyString => true
  | String b s' => (N_of_ascii b <? 128)%N && is_ascii s'
  end.

End Str.

(** ** Python values met by the dispatcher *)

Module Py.

(** [s.split(sep)] for a one-character separator: never empty, the
    empty string splits into one empty piece. *)
Fixpoint split (sep : ascii) (s : string) : list string :=
  match s with
  | EmptyString => [EmptyString]
  | String c s' =>
      if Ascii.eqb c sep then EmptyString :: split sep s'
      else match split sep s' with
           | [] => [String c EmptyString]
           | w :: ws => String c w :: ws
           end
  end.

(** [sep.join(l)] *)
Fixpoint join (sep : string) (l : list string) : string :=
  match l with
  | [] => EmptyString
  | w :: ws =>
      match ws with
      | [] => w
      | _ :: _ => w +:+ sep +:+ join sep ws
      end
  end.

(** [l[:-1]] *)
Definition drop_last {A : Type} (l : list A) : list A := removelast l.

(** Truthiness of an optional list ([None] and [[]] are false) and of an
    optional string ([None] and the empty string are false). *)
Definition truthy_list {A : Type} (o : option (list A)) : bool :=
  match o with
  | Some (_ :: _) => true
  | _ => false
  end.

Definition truthy_str (o : option string) : bool :=
  match o with
  | Some s => Str.truthy s
  | None => false
  end.

(** [o[0]] on an optional list: [None] is not subscriptable, the empty
    list has no index 0. *)
Definition index0 {A : Type} (o : option (list A)) : res A :=
  match o with
  | None => Raise TypeError
  | Some [] => Raise IndexError
  | Some (a :: _) => Ok a
  end.

(** A number argument as the service call delivers it: absent, an
    integer, or a binary64 float. *)
Inductive num : Type :=
  | NoneNum
  | Int (z : Z)
  | Float (f : spec_float).

(** [int(v)]: the identity on integers, truncation toward zero on
    finite floats; [int(None)], [int(nan)] and [int(inf)] raise. *)
Definition int (v : num) : res Z :=
  match v with
  | NoneNum => Raise TypeError
  | Int z => Ok z
  | Float (S754_zero _) => Ok 0
  | Float (S754_infinity _) => Raise OverflowError
  | Float S754_nan => Raise ValueError
  | Float (S754_finite s m e) =>
      let mag := if 0 <=? e then Z.pos m * 2 ^ e else Z.pos m / 2 ^ (- e) in
      Ok (if s then - mag else mag)
  end.

(** The value of a finite float as a fraction [n / d], [d > 0]. *)
Definition fraction (s : bool) (m : positive) (e : Z) : Z * Z :=
  let n := if 0 <=? e then Z.pos m * 2 ^ e else Z.pos m in
  let d := if 0 <=? e then 1 else 2 ^ (- e) in
  (if s then - n else n, d).

(** The integer a number truncates to: its value rounded toward zero
    ([Z.quot] rounds toward zero).  Not-a-number, the infinities and
    [None] have none. *)
Definition truncated (v : num) : option Z :=
  match v with
  | NoneNum => None
  | Int z => Some z
  | Float (S754_zero _) => Some 0
  | Float (S754_finite s m e) =>
      let '(n, d) := fraction s m e in Some (n ÷ d)
  | Float _ => None
  end.

(** Dict literals of the command payload, keys in source order. *)
#[warnings="-register-all"]
Inductive json : Type :=
  | JInt (z : Z)
  | JStr (s : string)
  | JDict (items : list (string * json)).

End Py.

(** ** The merge loop of update_options, shared by both packages *)

Section Options.

(** The type of option values; the merge never looks inside them. *)
Context {V : Type}.

(** The loop both versions run: for each key in order, take the value
    of [new_options] when the key is in it and [bk_options[key]]
    otherwise, which raises [KeyError] when the key is missing there
    too, and store it in [updated_options]. *)
Fixpoint merge_keys (bk_options new_options : gmap string V)
    (keys : list string) (updated_options : gmap string V)
    : res (gmap string V) :=
  match keys with
  | [] => Ok updated_options
  | key :: rest =>
      value ← (match new_options !! key with
               | Some v => Ok v
               | None =>
                   match bk_options !! key with
                   | Some v => Ok v
                   | None => Raise (KeyError key)
                   end
               end);
      merge_keys bk_options new_options rest (<[key:=value]> updated_options)
  end.

(** [try: ... except KeyError: return bk_options]; any other exception
    propagates. *)
Definition except_KeyError (bk_options : gmap string V)
    (body : res (gmap string V)) : res (gmap string V) :=
  match body with
  | Ok updated_options => Ok updated_options
  | Raise (KeyError _) => Ok bk_options
  | Raise e => Raise e
  end.

(** The value the merge prefers for a key: that of [new_options] when
    the key is there, else that of [bk_options]. *)
Definition preferred (bk_options new_options : gmap string V)
    (key : string) : option V :=
  match new_options !! key with
  | Some v => Some v
  | None => bk_options !! key
  end.

End Options.

(** ** mqtt_vacuum_camera/common.py *)

Module MqttVacuumCamera.

(** [DeviceEntry]: of its fields the code reads [sw_version] only, which
    the registry declares as [str | None]. *)
Record DeviceEntry : Type := mkDevice {
  sw_version : option string
}.

(** An entry of the entity registry, with the three fields the code reads. *)
Record RegistryEntry : Type := mkEntry {
  entity_id : string;
  device_id : option string;
  domain : string
}.

(** The part of [hass] the functions reach: the device registry (a dict by
    device id), the entity registry (its [entities.values()], in insertion
    order) and the MQTT debug info, which gives for an entity the keys of
    its [subscriptions] dict in order, or [None] when that key is unset. *)
Record HomeAssistant : Type := mkHass {
  dev_reg : gmap string DeviceEntry;
  entity_reg : list RegistryEntry;
  debug_info_entities : gmap string (option (list string))
}.

(** [is_rand256_vacuum(vacuum_device)], lines 132-141.  The argument is
    [None] when a registry lookup found nothing: reading [sw_version] of
    [None] raises [AttributeError]. *)
Definition is_rand256_vacuum (vacuum_device : option DeviceEntry) : res bool :=
  match vacuum_device with
  | None => Raise AttributeError
  | Some d =>
      let sof_version := Str.of_option (sw_version d) in
      if Str.startswith (Str.lower sof_version) "valetudo"
      then Ok false
      else Ok true
  end.

(** The two firmware families. *)
Inductive firmware : Type := Hypfer | Rand256.

Definition firmware_of (is_rand256 : bool) : firmware :=
  if is_rand256 then Rand256 else Hypfer.

(** [get_vacuum_mqtt_topic(vacuum_entity_id, hass)], lines 77-95.  The
    [AttributeError] of a missing entity or missing [subscriptions] is
    caught and gives [None]; the [IndexError] of an empty subscription
    dict is not caught. *)
Definition get_vacuum_mqtt_topic (vacuum_entity_id : string)
    (hass : HomeAssistant) : res (option string) :=
  match debug_info_entities hass !! vacuum_entity_id with
  | None => Ok None
  | Some None => Ok None
  | Some (Some subscriptions) =>
      full_topic ← Py.index0 (Some subscriptions);
      let topic_parts := Py.split "/" full_topic in
      let base_topic := Py.join "/" (Py.drop_last topic_parts) in
      Ok (Some base_topic)
  end.

(** The vacuum entities of a device: the inner loop of lines 178-180. *)
Definition vacuum_entities_of (device_id' : string)
    (entries : list RegistryEntry) : list string :=
  entity_id <$>
    filter (λ entry, device_id entry = Some device_id' ∧ domain entry = "vacuum")
           entries.

(** [from_device_ids_to_entity_ids(device_ids, hass)], lines 162-181.  The
    [return] sits inside the loop: the first device decides.  Falling off
    the loop returns [None]. *)
Fixpoint from_device_ids_to_entity_ids (device_ids : list string)
    (hass : HomeAssistant) : res (option (list string)) :=
  match device_ids with
  | [] => Ok None
  | device_id' :: rest =>
      let device := dev_reg hass !! device_id' in
      test_firmware ← is_rand256_vacuum device;
      match device with
      | Some _ => Ok (Some (vacuum_entities_of device_id' (entity_reg hass)))
      | None => from_device_ids_to_entity_ids rest hass
      end
  end.

(** [get_device_info_from_entity_id(entity_id, hass)], lines 184-194. *)
Fixpoint device_of_first_match (entity_id' : string)
    (devs : gmap string DeviceEntry) (entries : list RegistryEntry)
    : option DeviceEntry :=
  match entries with
  | [] => None
  | entry :: rest =>
      if bool_decide (entity_id entry = entity_id' ∧ domain entry = "vacuum")
      then (d ← device_id entry; devs !! d)
      else device_of_first_match entity_id' devs rest
  end.

Definition get_device_info_from_entity_id (entity_id' : string)
    (hass : HomeAssistant) : option DeviceEntry :=
  device_of_first_match entity_id' (dev_reg hass) (entity_reg hass).

(** The dict returned by [generate_service_data_go_to]. *)
Record service_data : Type := mkServiceData {
  sd_entity_id : option (list string);
  sd_topic : string;
  sd_payload : Py.json;
  sd_firmware : string
}.

(** Lines 217-243 of [generate_service_data_go_to]: the command for the
    first of the resolved entities. *)
Definition go_to_command (entity_id' vacuum_entity_id : option (list string))
    (x y : Py.num) (spot_id : option string) (hass : HomeAssistant)
    : res (option service_data) :=
  first ← Py.index0 vacuum_entity_id;
  base_topic ← get_vacuum_mqtt_topic first hass;
  let device_info := get_device_info_from_entity_id first hass in
  is_rand256 ← is_rand256_vacuum device_info;
  let topic :=
    if negb is_rand256
    then Str.of_option base_topic +:+ "/GoToLocationCapability/go/set"
    else Str.of_option base_topic +:+ "/custom_command" in
  rand256_payload ←
    (if negb (Py.truthy_str spot_id)
     then xi ← Py.int x; yi ← Py.int y;
          Ok (Py.JDict [("command", Py.JStr "go_to");
                        ("spot_coordinates",
                         Py.JDict [("x", Py.JInt xi); ("y", Py.JInt yi)])])
     else Ok (Py.JDict [("command", Py.JStr "go_to");
                        ("spot_id", Py.JStr (default "" spot_id))]));
  payload ←
    (if negb is_rand256
     then xi ← Py.int x; yi ← Py.int y;
          Ok (Py.JDict [("coordinates",
                         Py.JDict [("x", Py.JInt xi); ("y", Py.JInt yi)])])
     else Ok rand256_payload);
  Ok (Some {| sd_entity_id := entity_id';
              sd_topic := topic;
              sd_payload := payload;
              sd_firmware := if is_rand256 then "Rand256" else "Valetudo" |}).

(** [generate_service_data_go_to(entity_id, device_id, x, y, spot_id, hass)],
    lines 197-243.  Both identifier arguments are used as lists: [device_id]
    is iterated and the resolved value is indexed with [[0]]. *)
Definition generate_service_data_go_to
    (entity_id' device_id' : option (list string))
    (x y : Py.num) (spot_id : option string) (hass : HomeAssistant)
    : res (option service_data) :=
  let vacuum_entity_id := entity_id' in
  if Py.truthy_list device_id' then
    resolved_entities ←
      from_device_ids_to_entity_ids (default [] device_id') hass;
    go_to_command entity_id' resolved_entities x y spot_id hass
  else if negb (Py.truthy_list vacuum_entity_id) then
    Ok None
  else
    go_to_command entity_id' vacuum_entity_id x y spot_id hass.

(** The entity a dispatch is addressed to: the first vacuum entity of the
    first listed device when device identifiers are given, the first listed
    entity otherwise. *)
Inductive targets (hass : HomeAssistant)
    : option (list string) → option (list string) → string → Prop :=
  | targets_device entity_id' device_ids e rest :
      device_ids ≠ [] →
      from_device_ids_to_entity_ids device_ids hass = Ok (Some (e :: rest)) →
      targets hass entity_id' (Some device_ids) e
  | targets_entity device_id' e rest :
      Py.truthy_list device_id' = false →
      targets hass (Some (e :: rest)) device_id' e.

(** Registries for the examples: one vacuum [vacuum.tango] on device
    [dev1], subscribed under the base topic [tango]. *)
Definition hass_tango (version : string) : HomeAssistant :=
  {| dev_reg := {[ "dev1" := mkDevice (Some version) ]};
     entity_reg := [mkEntry "vacuum.tango" (Some "dev1") "vacuum"];
     debug_info_entities := {[ "vacuum.tango" := Some ["tango/state"] ]} |}.

(** The same device carrying a second vacuum entity. *)
Definition hass_two_vacuums : HomeAssistant :=
  {| dev_reg := {[ "dev1" := mkDevice (Some "Valetudo 2024.1") ]};
     entity_reg := [mkEntry "vacuum.tango" (Some "dev1") "vacuum";
                    mkEntry "sensor.tango_battery" (Some "dev1") "sensor";
                    mkEntry "vacuum.tango_2" (Some "dev1") "vacuum"];
     debug_info_entities :=
       <[ "vacuum.tango_2" := Some ["tango2/state"] ]>
         {[ "vacuum.tango" := Some ["tango/state"] ]} |}.

(** [update_options(bk_options, new_options)], lines 105-123.
    [KEYS_TO_UPDATE] comes from [const.py], which is not among the
    sources: it is a parameter here. *)
Definition update_options {V : Type} (KEYS_TO_UPDATE : list string)
    (bk_options new_options : gmap string V) : res (gmap string V) :=
  let keys_to_update := KEYS_TO_UPDATE in
  except_KeyError bk_options
    (merge_keys bk_options new_options keys_to_update ∅).

(** For the examples: the vacuum of [hass_tango] before the MQTT
    integration has recorded anything about it, next to a camera entity. *)
Definition hass_no_mqtt : HomeAssistant :=
  {| dev_reg := {[ "dev1" := mkDevice (Some "Valetudo 2024.1") ]};
     entity_reg := [mkEntry "camera.tango" (Some "dev1") "camera";
                    mkEntry "vacuum.tango" (Some "dev1") "vacuum"];
     debug_info_entities := ∅ |}.

(** [get_vacuum_unique_id_from_mqtt_topic(vacuum_mqtt_topic)], lines
    98-102: the second piece of the topic; a topic with one piece has no
    index 1. *)
Definition get_vacuum_unique_id_from_mqtt_topic (vacuum_mqtt_topic : string)
    : res string :=
  match Py.split "/" vacuum_mqtt_topic !! 1%nat with
  | Some part => Ok (Str.lower part +:+ "_camera")
  | None => Raise IndexError
  end.

Definition newline : string := String "010"%char EmptyString.

(** [re.sub(r"_camera$", "", s)]: the pattern matches where the rest of
    the string is [_camera], or [_camera] and one final newline ([$] also
    matches just before a newline that ends the string); the match is
    removed. *)
Fixpoint re_sub_camera_end (s : string) : string :=
  if bool_decide (s = "_camera") then EmptyString
  else if bool_decide (s = "_camera" +:+ newline) then newline
  else match s with
       | EmptyString => EmptyString
       | String c s' => String c (re_sub_camera_end s')
       end.

(** [extract_file_name(unique_id)], lines 126-129. *)
Definition extract_file_name (unique_id : string) : string :=
  let file_name := re_sub_camera_end unique_id in
  Str.lower file_name.

(** [build_full_topic_set(base_topic, topic_suffixes, add_topic=None)],
    lines 144-159; the sets are [gset]s. *)
Definition build_full_topic_set (base_topic : string)
    (topic_suffixes : gset string) (add_topic : option string)
    : gset string :=
  let full_topics : gset string :=
    set_map (λ suffix, base_topic +:+ suffix) topic_suffixes in
  if Py.truthy_str add_topic
  then full_topics ∪ {[ default "" add_topic ]}
  else full_topics.

End MqttVacuumCamera.

(** ** valetudo_vacuum_camera: common.py and valetudo/connector.py *)

Module ValetudoVacuumCamera.

(** [keys_to_update], lines 98-164. *)
Definition keys_to_update : list string :=
  [ "rotate_image";
    "margins";
    "aspect_ratio";
    "offset_top";
    "offset_bottom";
    "offset_left";
    "offset_right";
    "auto_zoom";
    "zoom_lock_ratio";
    "show_vac_status";
    "vac_status_size";
    "vac_status_position";
    "vac_status_font";
    "get_svg_file";
    "enable_www_snapshots";
    "color_charger";
    "color_move";
    "color_wall";
    "color_robot";
    "color_go_to";
    "color_no_go";
    "color_zone_clean";
    "color_background";
    "color_text";
    "alpha_charger";
    "alpha_move";
    "alpha_wall";
    "alpha_robot";
    "alpha_go_to";
    "alpha_no_go";
    "alpha_zone_clean";
    "alpha_background";
    "alpha_text";
    "color_room_0";
    "color_room_1";
    "color_room_2";
    "color_room_3";
    "color_room_4";
    "color_room_5";
    "color_room_6";
    "color_room_7";
    "color_room_8";
    "color_room_9";
    "color_room_10";
    "color_room_11";
    "color_room_12";
    "color_room_13";
    "color_room_14";
    "color_room_15";
    "alpha_room_0";
    "alpha_room_1";
    "alpha_room_2";
    "alpha_room_3";
    "alpha_room_4";
    "alpha_room_5";
    "alpha_room_6";
    "alpha_room_7";
    "alpha_room_8";
    "alpha_room_9";
    "alpha_room_10";
    "alpha_room_11";
    "alpha_room_12";
    "alpha_room_13";
    "alpha_room_14";
    "alpha_room_15" ].

(** [update_options(bk_options, new_options)], lines 89-176. *)
Definition update_options {V : Type}
    (bk_options new_options : gmap string V) : res (gmap string V) :=
  let updated_options := ∅ in
  except_KeyError bk_options
    (merge_keys bk_options new_options keys_to_update updated_options).

(** *** valetudo/connector.py *)

Definition bytes : Type := list byte.

Definition in_range (lo hi : N) (b : byte) : bool :=
  ((lo <=? Byte.to_N b) && (Byte.to_N b <=? hi))%N.

(** Well-formed UTF-8 (RFC 3629): no overlong forms, no surrogates,
    nothing above U+10FFFF.  This is what the strict decoder accepts. *)
Fixpoint utf8_valid (bs : bytes) : bool :=
  match bs with
  | [] => true
  | b0 :: r0 =>
      if in_range 0x00 0x7F b0 then utf8_valid r0
      else if in_range 0xC2 0xDF b0 then
        match r0 with
        | b1 :: r1 => in_range 0x80 0xBF b1 && utf8_valid r1
        | _ => false
        end
      else if in_range 0xE0 0xEF b0 then
        match r0 with
        | b1 :: b2 :: r2 =>
            in_range (if in_range 0xE0 0xE0 b0 then 0xA0 else 0x80)
                     (if in_range 0xED 0xED b0 then 0x9F else 0xBF) b1
            && in_range 0x80 0xBF b2 && utf8_valid r2
        | _ => false
        end
      else if in_range 0xF0 0xF4 b0 then
        match r0 with
        | b1 :: b2 :: b3 :: r3 =>
            in_range (if in_range 0xF0 0xF0 b0 then 0x90 else 0x80)
                     (if in_range 0xF4 0xF4 b0 then 0x8F else 0xBF) b1
            && in_range 0x80 0xBF b2 && in_range 0x80 0xBF b3
            && utf8_valid r3
        | _ => false
        end
      else false
  end.

(** [bytes.decode(b, "utf-8")]: the text with that encoding, or
    [UnicodeDecodeError]. *)
Definition bytes_decode (b : bytes) : res string :=
  if utf8_valid b then Ok (string_of_list_byte b)
  else Raise UnicodeDecodeError.

(** Truthiness of [bytes] and of [bytes | None]. *)
Definition truthy_bytes (b : bytes) : bool :=
  match b with
  | [] => false
  | _ :: _ => true
  end.

Definition truthy_payload (o : option bytes) : bool :=
  match o with
  | Some b => truthy_bytes b
  | None => false
  end.

(** A message as the broker client hands it to the callback. *)
Record MQTTMessage : Type := mkMsg {
  topic : string;
  payload : bytes
}.

(** The fields of [ValetudoConnector] that the callback and the
    accessors touch, named as in [__init__]. *)
Record ValetudoConnector : Type := mkConnector {
  _mqtt_topic : string;
  _rcv_topic : option string;
  _payload : option bytes;
  _img_payload : option bytes;
  _mqtt_vac_stat : option string;
  _mqtt_vac_err : option string;
  _data_in : bool
}.

(** The connector after [__init__], lines 30-36. *)
Definition init (mqtt_topic : string) : ValetudoConnector :=
  {| _mqtt_topic := mqtt_topic;
     _rcv_topic := None;
     _payload := None;
     _img_payload := None;
     _mqtt_vac_stat := None;
     _mqtt_vac_err := None;
     _data_in := false |}.

(** Attribute assignments [self.f = v]. *)
Definition set_rcv_topic (v : option string) (self : ValetudoConnector) :=
  mkConnector (_mqtt_topic self) v (_payload self) (_img_payload self)
    (_mqtt_vac_stat self) (_mqtt_vac_err self) (_data_in self).
Definition set_payload (v : option bytes) (self : ValetudoConnector) :=
  mkConnector (_mqtt_topic self) (_rcv_topic self) v (_img_payload self)
    (_mqtt_vac_stat self) (_mqtt_vac_err self) (_data_in self).
Definition set_img_payload (v : option bytes) (self : ValetudoConnector) :=
  mkConnector (_mqtt_topic self) (_rcv_topic self) (_payload self) v
    (_mqtt_vac_stat self) (_mqtt_vac_err self) (_data_in self).
Definition set_mqtt_vac_stat (v : option string) (self : ValetudoConnector) :=
  mkConnector (_mqtt_topic self) (_rcv_topic self) (_payload self)
    (_img_payload self) v (_mqtt_vac_err self) (_data_in self).
Definition set_mqtt_vac_err (v : option string) (self : ValetudoConnector) :=
  mkConnector (_mqtt_topic self) (_rcv_topic self) (_payload self)
    (_img_payload self) (_mqtt_vac_stat self) v (_data_in self).
Definition set_data_in (v : bool) (self : ValetudoConnector) :=
  mkConnector (_mqtt_topic self) (_rcv_topic self) (_payload self)
    (_img_payload self) (_mqtt_vac_stat self) (_mqtt_vac_err self) v.

(** [get_vacuum_status], [get_vacuum_error], [is_data_available]. *)
Definition get_vacuum_status (self : ValetudoConnector) := _mqtt_vac_stat self.
Definition get_vacuum_error (self : ValetudoConnector) := _mqtt_vac_err self.
Definition is_data_available (self : ValetudoConnector) := _data_in self.

(** [on_message_callback(self, client, userdata, msg)], lines 76-103.
    The object is mutated in place, so the connector is returned next to
    the outcome: what was assigned before an exception stays assigned.
    The log lines only concatenate strings. *)
Definition on_message_callback (self : ValetudoConnector) (msg : MQTTMessage)
    : ValetudoConnector * res unit :=
  let self := set_rcv_topic (Some (topic msg)) self in
  if bool_decide (_rcv_topic self
                  = Some (_mqtt_topic self +:+ "/MapData/map-data-hass")) then
    let self := set_img_payload (Some (payload msg)) self in
    let self := set_data_in true self in
    (self, Ok ())
  else if bool_decide (_rcv_topic self
                  = Some (_mqtt_topic self +:+ "/StatusStateAttribute/status")) then
    let self := set_payload (Some (payload msg)) self in
    if truthy_payload (_payload self) then
      match bytes_decode (payload msg) with
      | Ok text => (set_mqtt_vac_stat (Some text) self, Ok ())
      | Raise e => (self, Raise e)
      end
    else (self, Ok ())
  else if bool_decide (_rcv_topic self
                  = Some (_mqtt_topic self
                          +:+ "/StatusStateAttribute/error_description")) then
    let self := set_payload (Some (payload msg)) self in
    match bytes_decode (payload msg) with
    | Ok text => (set_mqtt_vac_err (Some text) self, Ok ())
    | Raise e => (self, Raise e)
    end
  else (self, Ok ()).

(** The callback run over the messages of a list in receipt order.  Each
    run starts from the connector the previous one left, also when the
    previous one raised. *)
Definition receive (self : ValetudoConnector) (msgs : list MQTTMessage)
    : ValetudoConnector :=
  foldl (λ c m, (on_message_callback c m).1) self msgs.

Section Decoder.

(** The parsed map, and [RawToJson.camera_message_received(payload,
    topic)] of [utils/valetudo_jdata.py], which is not among the
    sources: a parameter that may return a result, [None], or raise. *)
Context {Json : Type}.
Variable camera_message_received : bytes → string → res (option Json).

(** [update_data(self, process=True)], lines 40-52. *)
Definition update_data (self : ValetudoConnector) (process : bool)
    : ValetudoConnector * res (option Json) :=
  if truthy_payload (_img_payload self) then
    if process then
      match camera_message_received (default [] (_img_payload self))
                                    (_mqtt_topic self) with
      | Ok result => (set_data_in false self, Ok result)
      | Raise e => (self, Raise e)
      end
    else (set_data_in false self, Ok None)
  else (self, Ok None).

End Decoder.

(** For the examples: a decoder whose parsed map is the payload itself,
    and a connector that has cached a status and an error text. *)
Definition echo_decoder (payload : bytes) (_ : string) : res (option bytes) :=
  Ok (Some payload).

Definition docked_robot : ValetudoConnector :=
  set_mqtt_vac_err (Some "none")
    (set_mqtt_vac_stat (Some "docked") (init "valetudo/robot")).

(** The three cache groups of the connector and the topic suffix that
    feeds each. *)
Inductive cache : Type := MapCache | StatusCache | ErrorCache.

Definition suffix (k : cache) : string :=
  match k with
  | MapCache => "/MapData/map-data-hass"
  | StatusCache => "/StatusStateAttribute/status"
  | ErrorCache => "/StatusStateAttribute/error_description"
  end.

(** [msg] arrives on the topic of cache [k] of this connector. *)
Definition routed (self : ValetudoConnector) (msg : MQTTMessage)
    (k : cache) : Prop :=
  topic msg = _mqtt_topic self +:+ suffix k.

Global Instance routed_dec self msg k : Decision (routed self msg k).
Proof. unfold routed. apply _. Defined.

(** The content of cache [k] is the same in both connectors. *)
Definition same_cache (k : cache) (a b : ValetudoConnector) : Prop :=
  match k with
  | MapCache => _img_payload a = _img_payload b ∧ _data_in a = _data_in b
  | StatusCache => _mqtt_vac_stat a = _mqtt_vac_stat b
  | ErrorCache => _mqtt_vac_err a = _mqtt_vac_err b
  end.

(** [save_payload(self, file_name)], lines 63-74.  The file written is
    the effect: the result is the path and the content handed to [open]
    and [write], or [None] when nothing is written.  [cwd] stands for
    [os.getcwd()]. *)
Definition save_payload (cwd : string) (self : ValetudoConnector)
    (file_name : string) : option (string * bytes) :=
  if truthy_payload (_img_payload self) && bool_decide (_data_in self = true)
  then Some (cwd
             +:+ "custom_components/valetudo_vacuum_camera/snapshots/mqtt_"
             +:+ file_name
             +:+ ".raw",
             default [] (_img_payload self))
  else None.

(** What happens to a connector: the broker delivers a message, or the
    camera calls [update_data]. *)
Inductive event : Type :=
  | Message (msg : MQTTMessage)
  | Take (process : bool).

Definition step {Json : Type} (dec : bytes → string → res (option Json))
    (self : ValetudoConnector) (ev : event) : ValetudoConnector :=
  match ev with
  | Message msg => (on_message_callback self msg).1
  | Take process => (update_data dec self process).1
  end.

Definition run {Json : Type} (dec : bytes → string → res (option Json))
    (self : ValetudoConnector) (evs : list event) : ValetudoConnector :=
  foldl (step dec) self evs.

(** The messages among the events, in order. *)
Definition messages (evs : list event) : list MQTTMessage :=
  omap (λ ev, match ev with Message msg => Some msg | Take _ => None end) evs.

(** A status message that the callback stores: on the status topic, not
    empty, valid UTF-8.  An error message that it stores: on the
    error-description topic, valid UTF-8. *)
Definition stores_status (self : ValetudoConnector) (msg : MQTTMessage) : Prop :=
  routed self msg StatusCache ∧ truthy_bytes (payload msg) = true
  ∧ utf8_valid (payload msg) = true.

Definition stores_error (self : ValetudoConnector) (msg : MQTTMessage) : Prop :=
  routed self msg ErrorCache ∧ utf8_valid (payload msg) = true.

Global Instance stores_status_dec self msg : Decision (stores_status self msg).
Proof. unfold stores_status. apply _. Defined.

Global Instance stores_error_dec self msg : Decision (stores_error self msg).
Proof. unfold stores_error. apply _. Defined.

End ValetudoVacuumCamera.

(** ** The Python primitives on sample values *)

Example split_join_base_topic :
  Py.split "/" "valetudo/robot/state" = ["valetudo"; "robot"; "state"] ∧
  Py.join "/" (Py.drop_last (Py.split "/" "valetudo/robot/state"))
    = "valetudo/robot" ∧
  Py.join "/" (Py.drop_last (Py.split "/" "state")) = "".
Proof. by vm_compute. Qed.

Example int_truncates_toward_zero :
  Py.int (Py.Float (S754_finite false 403 (-2))) = Ok 100 ∧
  Py.int (Py.Float (S754_finite true 403 (-2))) = Ok (-100) ∧
  Py.int (Py.Float (S754_finite false 25 2)) = Ok 100 ∧
  Py.int (Py.Float S754_nan) = Raise ValueError ∧
  Py.int Py.NoneNum = Raise TypeError.
Proof. by vm_compute. Qed.

Example utf8_samples :
  ValetudoVacuumCamera.bytes_decode [x64; x6f; x63; x6b; x65; x64]
    = Ok "docked" ∧
  ValetudoVacuumCamera.utf8_valid [xc3; xa9] = true ∧
  ValetudoVacuumCamera.utf8_valid [xe2; x82; xac] = true ∧
  ValetudoVacuumCamera.utf8_valid [xf0; x9f; xa4; x96] = true ∧
  ValetudoVacuumCamera.utf8_valid [xc0; x80] = false ∧
  ValetudoVacuumCamera.utf8_valid [xed; xa0; x80] = false ∧
  ValetudoVacuumCamera.utf8_valid [xf4; x90; x80; x80] = false ∧
  ValetudoVacuumCamera.utf8_valid [xe2; x82] = false ∧
  ValetudoVacuumCamera.utf8_valid [x80] = false.
Proof. by vm_compute. Qed.

(** ** Firmware classification *)

Lemma lower_app (a b : string) :
  Str.lower (a +:+ b) = Str.lower a +:+ Str.lower b.
Proof. induction a as [|c a IH]; simpl; [done | by rewrite IH]. Qed.

Lemma startswith_app (p tl : string) : Str.startswith (p +:+ tl) p = true.
Proof.
  induction p as [|c p IH]; simpl; [done |].
  by rewrite Ascii.eqb_refl.
Qed.

Lemma startswith_split (s p : string) :
  Str.startswith s p = true → ∃ tl, s = p +:+ tl.
Proof.
  revert s; induction p as [|a p IH]; intros s H; simpl in *.
  - by exists s.
  - destruct s as [|b s]; [done |].
    destruct (Ascii.eqb a b) eqn:E; [| done].
    apply Ascii.eqb_eq in E as <-.
    destruct (IH _ H) as [tl ->]. by exists tl.
Qed.

Lemma lower_split (s q1 q2 : string) :
  Str.lower s = q1 +:+ q2 →
  ∃ hd tl, s = hd +:+ tl ∧ Str.lower hd = q1 ∧ Str.lower tl = q2.
Proof.
  revert s; induction q1 as [|c q1 IH]; intros s H; simpl in *.
  - by exists EmptyString, s.
  - destruct s as [|b s]; simpl in H; [done |].
    injection H as Hc Hs.
    destruct (IH _ Hs) as (hd & tl & -> & Hhd & Htl).
    exists (String b hd), tl. simpl. by rewrite Hc, Hhd.
Qed.

Lemma startswith_lower_iff (s p : string) :
  Str.startswith (Str.lower s) (Str.lower p) = true ↔ Str.begins_ci p s.
Proof.
  split.
  - intros H. apply startswith_split in H as [tl Htl].
    apply lower_split in Htl as (hd & tl' & -> & Hhd & _).
    by exists hd, tl'.
  - intros (hd & tl & -> & Hhd).
    rewrite lower_app, Hhd. apply startswith_app.
Qed.

Section ClassifierFacts.

Import MqttVacuumCamera.

(** C1.  For every device entry the classifier answers [False] (Hypfer)
    exactly when the software-version string, as [str()] renders it, begins
    case-insensitively with [valetudo], and [True] (Rand256) for every other
    value, including an absent one; it never raises on a device entry.
    [Valetudo 2024.1] is Hypfer and [1.2.3-custom] is Rand256. *)
Theorem is_rand256_vacuum_classifies :
  (∀ d : DeviceEntry,
      ∃ b : bool,
        is_rand256_vacuum (Some d) = Ok b ∧
        (firmware_of b = Hypfer ↔
           Str.begins_ci "valetudo" (Str.of_option (sw_version d))) ∧
        (firmware_of b = Rand256 ↔
           ¬ Str.begins_ci "valetudo" (Str.of_option (sw_version d)))) ∧
  is_rand256_vacuum (Some (mkDevice (Some "Valetudo 2024.1"))) = Ok false ∧
  is_rand256_vacuum (Some (mkDevice (Some "1.2.3-custom"))) = Ok true ∧
  is_rand256_vacuum (Some (mkDevice None)) = Ok true.
Proof.
  split; [| by repeat split].
  intros [v]. unfold is_rand256_vacuum. cbn [sw_version].
  pose proof (startswith_lower_iff (Str.of_option v) "valetudo") as Hiff.
  change (Str.lower "valetudo") with "valetudo" in Hiff.
  destruct (Str.startswith (Str.lower (Str.of_option v)) "valetudo") eqn:E.
  - exists false. split; [done |]. split; split; try done.
    + intros _. by apply Hiff.
    + intros Hn. exfalso. apply Hn. by apply Hiff.
  - exists true. split; [done |]. split; split; try done.
    + intros Hb. apply Hiff in Hb. done.
    + intros _ Hb. apply Hiff in Hb. done.
Qed.

End ClassifierFacts.

(** ** The connector's message callback *)

Section ConnectorFacts.

Import ValetudoVacuumCamera.

Lemma append_inj_l (t a b : string) : t +:+ a = t +:+ b → a = b.
Proof. induction t as [|c t IH]; simpl; [done |]. intros [= H]. auto. Qed.

(** Decides the next topic comparison of the callback's [if]/[elif] chain. *)
Ltac next_topic_differs :=
  rewrite bool_decide_eq_false_2
    by (let H := fresh in intros [= H]; by apply append_inj_l in H).
Ltac next_topic_matches :=
  rewrite bool_decide_eq_true_2 by reflexivity.

Lemma routed_unique self msg k k' :
  routed self msg k → routed self msg k' → k' = k.
Proof.
  unfold routed. intros -> H. apply append_inj_l in H.
  by destruct k, k'.
Qed.

(** The callback, branch by branch. *)
Lemma callback_map self msg :
  routed self msg MapCache →
  on_message_callback self msg =
    (set_data_in true
       (set_img_payload (Some (payload msg))
          (set_rcv_topic (Some (topic msg)) self)), Ok ()).
Proof.
  unfold routed, on_message_callback. intros ->.
  cbn -[bool_decide String.append].
  by next_topic_matches.
Qed.

Lemma callback_status self msg :
  routed self msg StatusCache →
  on_message_callback self msg =
    let self' := set_payload (Some (payload msg))
                   (set_rcv_topic (Some (topic msg)) self) in
    if truthy_bytes (payload msg) then
      match bytes_decode (payload msg) with
      | Ok text => (set_mqtt_vac_stat (Some text) self', Ok ())
      | Raise e => (self', Raise e)
      end
    else (self', Ok ()).
Proof.
  unfold routed, on_message_callback. intros ->.
  cbn -[bool_decide String.append].
  next_topic_differs. by next_topic_matches.
Qed.

Lemma callback_error self msg :
  routed self msg ErrorCache →
  on_message_callback self msg =
    let self' := set_payload (Some (payload msg))
                   (set_rcv_topic (Some (topic msg)) self) in
    match bytes_decode (payload msg) with
    | Ok text => (set_mqtt_vac_err (Some text) self', Ok ())
    | Raise e => (self', Raise e)
    end.
Proof.
  unfold routed, on_message_callback. intros ->.
  cbn -[bool_decide String.append].
  do 2 next_topic_differs. by next_topic_matches.
Qed.

Lemma callback_other self msg :
  (∀ k, ¬ routed self msg k) →
  on_message_callback self msg = (set_rcv_topic (Some (topic msg)) self, Ok ()).
Proof.
  intros H. unfold on_message_callback. cbn -[bool_decide String.append].
  rewrite !bool_decide_eq_false_2; [done | ..]; intros [= E].
  - exact (H ErrorCache E).
  - exact (H StatusCache E).
  - exact (H MapCache E).
Qed.

Lemma decode_invalid (b : bytes) :
  utf8_valid b = false → bytes_decode b = Raise UnicodeDecodeError.
Proof. unfold bytes_decode. by intros ->. Qed.

Lemma invalid_nonempty (b : bytes) :
  utf8_valid b = false → truthy_bytes b = true.
Proof. by destruct b. Qed.

Lemma receive_snoc self msgs m :
  receive self (msgs ++ [m]) = (on_message_callback (receive self msgs) m).1.
Proof.
  unfold receive. revert self.
  induction msgs as [|m' msgs IH]; intros self; simpl; [done | apply IH].
Qed.

(** No message changes the connector's own topic, and only a map message
    changes the cached payload or the flag. *)
Lemma callback_cases self msg :
  (∃ k, routed self msg k) ∨ (∀ k, ¬ routed self msg k).
Proof.
  destruct (decide (routed self msg MapCache)); [left; by eexists |].
  destruct (decide (routed self msg StatusCache)); [left; by eexists |].
  destruct (decide (routed self msg ErrorCache)); [left; by eexists |].
  right. by intros [].
Qed.

Lemma callback_keeps_topic self msg :
  _mqtt_topic (on_message_callback self msg).1 = _mqtt_topic self.
Proof.
  destruct (callback_cases self msg) as [[[] Hr] | Hnone].
  - by rewrite (callback_map _ _ Hr).
  - rewrite (callback_status _ _ Hr). cbn zeta.
    by destruct (truthy_bytes (payload msg)), (bytes_decode (payload msg)).
  - rewrite (callback_error _ _ Hr). cbn zeta.
    by destruct (bytes_decode (payload msg)).
  - by rewrite (callback_other _ _ Hnone).
Qed.

Lemma callback_not_map self msg :
  ¬ routed self msg MapCache →
  same_cache MapCache self (on_message_callback self msg).1.
Proof.
  intros Hnot.
  destruct (callback_cases self msg) as [[[] Hr] | Hnone].
  - done.
  - rewrite (callback_status _ _ Hr). cbn zeta.
    by destruct (truthy_bytes (payload msg)), (bytes_decode (payload msg)).
  - rewrite (callback_error _ _ Hr). cbn zeta.
    by destruct (bytes_decode (payload msg)).
  - by rewrite (callback_other _ _ Hnone).
Qed.

Lemma receive_keeps_topic self msgs :
  _mqtt_topic (receive self msgs) = _mqtt_topic self.
Proof.
  induction msgs as [|m msgs IH] using rev_ind; [done |].
  by rewrite receive_snoc, callback_keeps_topic.
Qed.

(** The cached payload follows the last map message of the run, whatever
    other messages arrive in between. *)
Lemma receive_last_map self msgs m :
  last (filter (λ m', routed self m' MapCache) msgs) = Some m →
  _img_payload (receive self msgs) = Some (payload m) ∧
  _data_in (receive self msgs) = true.
Proof.
  induction msgs as [|m' msgs IH] using rev_ind; [done |].
  rewrite filter_app, receive_snoc.
  destruct (decide (routed self m' MapCache)) as [Hr|Hnr].
  - rewrite filter_cons_True, filter_nil, last_snoc by done.
    intros [= ->].
    assert (routed (receive self msgs) m MapCache) as Hr'
      by (unfold routed in *; by rewrite receive_keeps_topic).
    by rewrite (callback_map _ _ Hr').
  - rewrite filter_cons_False, filter_nil, app_nil_r by done.
    intros Hlast. destruct (IH Hlast) as [Himg Hflag].
    assert (¬ routed (receive self msgs) m' MapCache) as Hnr'
      by (unfold routed in *; by rewrite receive_keeps_topic).
    destruct (callback_not_map _ _ Hnr') as [<- <-]. done.
Qed.

(** C2, as the code has it.  A payload on the status or the
    error-description topic that is not valid UTF-8 makes the callback
    raise [UnicodeDecodeError] to its caller; the cached map payload,
    flag, status and error are as before.  A message on none of the three
    topics returns normally and changes no cache. *)
Theorem callback_malformed_or_foreign self msg :
  (∀ k, k ≠ MapCache → routed self msg k →
        utf8_valid (payload msg) = false →
        (on_message_callback self msg).2 = Raise UnicodeDecodeError ∧
        ∀ k', same_cache k' self (on_message_callback self msg).1) ∧
  ((∀ k, ¬ routed self msg k) →
        on_message_callback self msg
          = (set_rcv_topic (Some (topic msg)) self, Ok ()) ∧
        ∀ k', same_cache k' self (on_message_callback self msg).1).
Proof.
  split.
  - intros k Hk Hr Hbad.
    pose proof (decode_invalid _ Hbad) as Hdec.
    pose proof (invalid_nonempty _ Hbad) as Hne.
    destruct k; [done | |].
    + rewrite (callback_status _ _ Hr). cbn zeta. rewrite Hne, Hdec.
      split; [done |]. by intros [].
    + rewrite (callback_error _ _ Hr). cbn zeta. rewrite Hdec.
      split; [done |]. by intros [].
  - intros Hnone. rewrite (callback_other _ _ Hnone).
    split; [done |]. by intros [].
Qed.

(** C2, as stated, fails: one byte [0xff] on the status topic reaches the
    caller as an exception. *)
Lemma callback_raises_on_invalid_utf8 :
  routed docked_robot
    (mkMsg "valetudo/robot/StatusStateAttribute/status" [xff]) StatusCache ∧
  utf8_valid [xff] = false ∧
  on_message_callback docked_robot
      (mkMsg "valetudo/robot/StatusStateAttribute/status" [xff])
    = (set_payload (Some [xff])
         (set_rcv_topic (Some "valetudo/robot/StatusStateAttribute/status")
            docked_robot),
       Raise UnicodeDecodeError).
Proof. by vm_compute. Qed.

Lemma callback_malformed_or_foreign_witness :
  (on_message_callback (init "valetudo/robot")
     (mkMsg "valetudo/robot/StatusStateAttribute/error_description"
            [xc3; x28])).2 = Raise UnicodeDecodeError ∧
  on_message_callback (init "valetudo/robot")
     (mkMsg "valetudo/robot/BatteryStateAttribute/level" [x37; x30])
    = (set_rcv_topic (Some "valetudo/robot/BatteryStateAttribute/level")
         (init "valetudo/robot"), Ok ()).
Proof.
  split.
  - apply (callback_malformed_or_foreign (init "valetudo/robot")
             (mkMsg "valetudo/robot/StatusStateAttribute/error_description"
                    [xc3; x28])) with (k := ErrorCache);
      [discriminate | reflexivity | reflexivity].
  - apply (callback_malformed_or_foreign (init "valetudo/robot")
             (mkMsg "valetudo/robot/BatteryStateAttribute/level" [x37; x30])).
    intros []; vm_compute; discriminate.
Defined.

(** C8, as the code has it.  A message on one of the three topics is
    routed to exactly one cache and can update that one only: the other
    two caches are as before, whatever the outcome.  A map message always
    stores its payload and sets the flag.  A status message stores its
    text when the payload is non-empty and valid UTF-8, an error message
    when the payload is valid UTF-8; otherwise the cache it was routed to
    is as before as well, and no cache is updated. *)
Theorem callback_updates_at_most_one_cache self msg k :
  routed self msg k →
  (∀ k', routed self msg k' → k' = k) ∧
  (∀ k', k' ≠ k → same_cache k' self (on_message_callback self msg).1) ∧
  match k with
  | MapCache =>
      _img_payload (on_message_callback self msg).1 = Some (payload msg) ∧
      _data_in (on_message_callback self msg).1 = true ∧
      (on_message_callback self msg).2 = Ok ()
  | StatusCache =>
      _mqtt_vac_stat (on_message_callback self msg).1
        = (if truthy_bytes (payload msg) && utf8_valid (payload msg)
           then Some (string_of_list_byte (payload msg))
           else _mqtt_vac_stat self) ∧
      (on_message_callback self msg).2
        = (if truthy_bytes (payload msg) && negb (utf8_valid (payload msg))
           then Raise UnicodeDecodeError
           else Ok ())
  | ErrorCache =>
      _mqtt_vac_err (on_message_callback self msg).1
        = (if utf8_valid (payload msg)
           then Some (string_of_list_byte (payload msg))
           else _mqtt_vac_err self) ∧
      (on_message_callback self msg).2
        = (if utf8_valid (payload msg)
           then Ok ()
           else Raise UnicodeDecodeError)
  end.
Proof.
  intros Hr.
  split; [intros k' Hk'; by eapply routed_unique |].
  destruct k.
  - rewrite (callback_map _ _ Hr). split; [| done]. by intros [].
  - rewrite (callback_status _ _ Hr). cbn zeta. unfold bytes_decode.
    destruct (truthy_bytes (payload msg)), (utf8_valid (payload msg));
      (split; [by intros [] | done]).
  - rewrite (callback_error _ _ Hr). cbn zeta. unfold bytes_decode.
    destruct (utf8_valid (payload msg)); (split; [by intros [] | done]).
Qed.

(** C8, as stated, fails: an empty payload on the status topic, and the
    byte [0xff] on the error-description topic, are messages on
    recognized topics after which all three caches are as before. *)
Lemma callback_may_update_no_cache :
  routed docked_robot
    (mkMsg "valetudo/robot/StatusStateAttribute/status" []) StatusCache ∧
  (on_message_callback docked_robot
     (mkMsg "valetudo/robot/StatusStateAttribute/status" [])).2 = Ok () ∧
  _img_payload
    (on_message_callback docked_robot
       (mkMsg "valetudo/robot/StatusStateAttribute/status" [])).1
    = _img_payload docked_robot ∧
  _data_in
    (on_message_callback docked_robot
       (mkMsg "valetudo/robot/StatusStateAttribute/status" [])).1
    = _data_in docked_robot ∧
  _mqtt_vac_stat
    (on_message_callback docked_robot
       (mkMsg "valetudo/robot/StatusStateAttribute/status" [])).1
    = _mqtt_vac_stat docked_robot ∧
  _mqtt_vac_err
    (on_message_callback docked_robot
       (mkMsg "valetudo/robot/StatusStateAttribute/status" [])).1
    = _mqtt_vac_err docked_robot ∧
  routed docked_robot
    (mkMsg "valetudo/robot/StatusStateAttribute/error_description" [xff])
    ErrorCache ∧
  _img_payload
    (on_message_callback docked_robot
       (mkMsg "valetudo/robot/StatusStateAttribute/error_description"
              [xff])).1
    = _img_payload docked_robot ∧
  _data_in
    (on_message_callback docked_robot
       (mkMsg "valetudo/robot/StatusStateAttribute/error_description"
              [xff])).1
    = _data_in docked_robot ∧
  _mqtt_vac_stat
    (on_message_callback docked_robot
       (mkMsg "valetudo/robot/StatusStateAttribute/error_description"
              [xff])).1
    = _mqtt_vac_stat docked_robot ∧
  _mqtt_vac_err
    (on_message_callback docked_robot
       (mkMsg "valetudo/robot/StatusStateAttribute/error_description"
              [xff])).1
    = _mqtt_vac_err docked_robot.
Proof. by vm_compute. Qed.

Lemma callback_updates_at_most_one_cache_witness :
  _mqtt_vac_stat
    (on_message_callback docked_robot
       (mkMsg "valetudo/robot/StatusStateAttribute/status"
              [x69; x64; x6c; x65])).1
    = Some "idle" ∧
  _mqtt_vac_err
    (on_message_callback docked_robot
       (mkMsg "valetudo/robot/StatusStateAttribute/status"
              [x69; x64; x6c; x65])).1
    = Some "none" ∧
  _img_payload
    (on_message_callback docked_robot
       (mkMsg "valetudo/robot/MapData/map-data-hass" [x89; x50])).1
    = Some [x89; x50] ∧
  _mqtt_vac_stat
    (on_message_callback docked_robot
       (mkMsg "valetudo/robot/MapData/map-data-hass" [x89; x50])).1
    = Some "docked".
Proof.
  destruct (callback_updates_at_most_one_cache docked_robot
              (mkMsg "valetudo/robot/StatusStateAttribute/status"
                     [x69; x64; x6c; x65])
              StatusCache eq_refl)
    as (_ & Hframe & Hstat & _).
  destruct (callback_updates_at_most_one_cache docked_robot
              (mkMsg "valetudo/robot/MapData/map-data-hass" [x89; x50])
              MapCache eq_refl)
    as (_ & Hframe' & Himg & _ & _).
  split; [| split; [| split]].
  - exact Hstat.
  - symmetry. apply (Hframe ErrorCache). discriminate.
  - exact Himg.
  - symmetry. apply (Hframe' StatusCache). discriminate.
Defined.

(** C9.  An empty payload on the status topic leaves the cached status
    as it was; an empty payload on the error-description topic replaces
    the cached error by the empty string.  Neither raises. *)
Theorem callback_empty_payload self msg :
  payload msg = [] →
  (routed self msg StatusCache →
     (on_message_callback self msg).2 = Ok () ∧
     get_vacuum_status (on_message_callback self msg).1
       = get_vacuum_status self) ∧
  (routed self msg ErrorCache →
     (on_message_callback self msg).2 = Ok () ∧
     get_vacuum_error (on_message_callback self msg).1 = Some "").
Proof.
  intros Hempty. split; intros Hr.
  - rewrite (callback_status _ _ Hr). cbn zeta. by rewrite Hempty.
  - rewrite (callback_error _ _ Hr). cbn zeta. by rewrite Hempty.
Qed.

Lemma callback_empty_payload_witness :
  get_vacuum_status
    (on_message_callback docked_robot
       (mkMsg "valetudo/robot/StatusStateAttribute/status" [])).1
    = Some "docked" ∧
  get_vacuum_error
    (on_message_callback docked_robot
       (mkMsg "valetudo/robot/StatusStateAttribute/error_description" [])).1
    = Some "".
Proof.
  split.
  - apply (callback_empty_payload docked_robot
             (mkMsg "valetudo/robot/StatusStateAttribute/status" []) eq_refl).
    reflexivity.
  - apply (callback_empty_payload docked_robot
             (mkMsg "valetudo/robot/StatusStateAttribute/error_description" [])
             eq_refl).
    reflexivity.
Defined.

End ConnectorFacts.

(** ** Taking the map payload *)

Section TakeFacts.

Import ValetudoVacuumCamera.

Context {Json : Type}.
Variable dec : bytes → string → res (option Json).

Lemma update_data_cached self p :
  _img_payload self = Some p → p ≠ [] →
  update_data dec self true =
    match dec p (_mqtt_topic self) with
    | Ok result => (set_data_in false self, Ok result)
    | Raise e => (self, Raise e)
    end.
Proof.
  intros Hp Hne. unfold update_data. rewrite Hp. cbn.
  by destruct p.
Qed.

(** C6, as the code has it.  With a non-empty payload cached and a
    decoder that returns, the take hands back the decoder's result and
    clears the flag; the payload stays cached, so a second take with no
    message in between decodes it again and returns the same result.
    With nothing cached the take returns [None] and changes nothing. *)
Theorem update_data_take self :
  (∀ p result,
      _img_payload self = Some p → p ≠ [] →
      dec p (_mqtt_topic self) = Ok result →
      let self' := (update_data dec self true).1 in
      (update_data dec self true).2 = Ok result ∧
      is_data_available self' = false ∧
      _img_payload self' = Some p ∧
      update_data dec self' true = (self', Ok result)) ∧
  (_img_payload self = None → update_data dec self true = (self, Ok None)).
Proof.
  split.
  - intros p result Hp Hne Hdec.
    rewrite (update_data_cached self p Hp Hne), Hdec. cbn [fst snd].
    repeat split; [done |].
    rewrite (update_data_cached (set_data_in false self) p Hp Hne).
    change (_mqtt_topic (set_data_in false self)) with (_mqtt_topic self).
    by rewrite Hdec.
  - intros Hnone. unfold update_data. by rewrite Hnone.
Qed.

(** C7.  Let [msgs] be what the callback receives, in receipt order, and
    let the messages on the map-data topic among them be a non-empty
    sequence ending with [m].  Then the cached payload is that of [m],
    whatever was cached before, and the flag is set; the next take decodes
    exactly that payload. *)
Theorem receive_map_keeps_last self msgs m :
  last (filter (λ m', routed self m' MapCache) msgs) = Some m →
  let self' := receive self msgs in
  _img_payload self' = Some (payload m) ∧
  is_data_available self' = true ∧
  update_data dec self' true =
    if truthy_bytes (payload m) then
      match dec (payload m) (_mqtt_topic self) with
      | Ok result => (set_data_in false self', Ok result)
      | Raise e => (self', Raise e)
      end
    else (self', Ok None).
Proof.
  intros Hlast self'. subst self'.
  destruct (receive_last_map _ _ _ Hlast) as [Himg Hflag].
  repeat split; try done.
  unfold update_data. rewrite Himg, receive_keeps_topic. cbn.
  by destruct (payload m).
Qed.

End TakeFacts.

Section TakeExamples.

Import ValetudoVacuumCamera.

(** C6, as stated, fails.  After one map message and a successful take
    the flag is down, yet a second take returns the payload's decoding
    again, not [None]; and with an empty payload cached the take leaves
    the flag up. *)
Lemma update_data_second_take_not_absent :
  (update_data echo_decoder
     (receive (init "valetudo/robot")
        [mkMsg "valetudo/robot/MapData/map-data-hass" [x89; x50]]) true)
    = (set_data_in false
         (receive (init "valetudo/robot")
            [mkMsg "valetudo/robot/MapData/map-data-hass" [x89; x50]]),
       Ok (Some [x89; x50])) ∧
  (update_data echo_decoder
     (set_data_in false
        (receive (init "valetudo/robot")
           [mkMsg "valetudo/robot/MapData/map-data-hass" [x89; x50]])) true).2
    = Ok (Some [x89; x50]) ∧
  is_data_available
    (update_data echo_decoder
       (receive (init "valetudo/robot")
          [mkMsg "valetudo/robot/MapData/map-data-hass" []]) true).1 = true.
Proof. by vm_compute. Qed.

Lemma update_data_take_witness :
  (update_data echo_decoder
     (set_img_payload (Some [x89; x50]) (init "valetudo/robot")) true).2
    = Ok (Some [x89; x50]) ∧
  update_data echo_decoder (init "valetudo/robot") true
    = (init "valetudo/robot", Ok None).
Proof.
  split.
  - destruct (update_data_take echo_decoder
                (set_img_payload (Some [x89; x50]) (init "valetudo/robot")))
      as [Hcached _].
    apply (Hcached [x89; x50] (Some [x89; x50]));
      [reflexivity | discriminate | reflexivity].
  - destruct (update_data_take echo_decoder (init "valetudo/robot"))
      as [_ Hnone].
    apply Hnone. reflexivity.
Defined.

Lemma receive_map_keeps_last_witness :
  _img_payload
    (receive (init "valetudo/robot")
       [mkMsg "valetudo/robot/MapData/map-data-hass" [x01];
        mkMsg "valetudo/robot/StatusStateAttribute/status" [x64];
        mkMsg "valetudo/robot/MapData/map-data-hass" [x02; x03];
        mkMsg "valetudo/robot/StatusStateAttribute/error_description" [xff]])
    = Some [x02; x03].
Proof.
  apply (receive_map_keeps_last echo_decoder (init "valetudo/robot")
           [mkMsg "valetudo/robot/MapData/map-data-hass" [x01];
            mkMsg "valetudo/robot/StatusStateAttribute/status" [x64];
            mkMsg "valetudo/robot/MapData/map-data-hass" [x02; x03];
            mkMsg "valetudo/robot/StatusStateAttribute/error_description" [xff]]
           (mkMsg "valetudo/robot/MapData/map-data-hass" [x02; x03])).
  by vm_compute.
Defined.

End TakeExamples.

(** ** Go-to dispatch *)

Section DispatchFacts.

Import Py MqttVacuumCamera.

Lemma int_truncated (v : num) (z : Z) : truncated v = Some z → int v = Ok z.
Proof.
  destruct v as [|z'|[s|s| |s m e]]; cbn; try congruence.
  unfold fraction. intros [= <-]. f_equal.
  assert (0 < 2 ^ (- e) ∨ 0 <= e) as Hpow.
  { destruct (Z.le_gt_cases 0 e); [by right | left].
    apply Z.pow_pos_nonneg; lia. }
  destruct (Z.leb_spec 0 e) as [He|He], s.
  - by rewrite Z.quot_1_r.
  - by rewrite Z.quot_1_r.
  - destruct Hpow as [Hpow|]; [| lia].
    rewrite Z.quot_opp_l by lia.
    by rewrite Z.quot_div_nonneg by lia.
  - destruct Hpow as [Hpow|]; [| lia].
    by rewrite Z.quot_div_nonneg by lia.
Qed.

Lemma is_rand256_vacuum_total dev : ∃ b, is_rand256_vacuum (Some dev) = Ok b.
Proof.
  unfold is_rand256_vacuum.
  destruct (Str.startswith _ _); by eexists.
Qed.

Lemma from_device_ids_first hass d ds dev :
  dev_reg hass !! d = Some dev →
  from_device_ids_to_entity_ids (d :: ds) hass
    = Ok (Some (vacuum_entities_of d (entity_reg hass))).
Proof.
  intros Hdev. cbn [from_device_ids_to_entity_ids]. rewrite Hdev.
  by destruct (is_rand256_vacuum_total dev) as [b ->].
Qed.

Lemma generate_on_target hass ent dev x y spot e :
  targets hass ent dev e →
  generate_service_data_go_to ent dev x y spot hass
    = go_to_command ent (Some [e]) x y spot hass.
Proof.
  intros [ent' dids e' rest Hne Hres | dev' e' rest Hdev];
    unfold generate_service_data_go_to.
  - destruct dids as [|d ds]; [done |].
    cbn -[from_device_ids_to_entity_ids go_to_command]. by rewrite Hres.
  - by rewrite Hdev.
Qed.

(** The command once target, base topic and firmware are known. *)
Lemma go_to_command_known hass ent e x y spot B is_rand256 :
  get_vacuum_mqtt_topic e hass = Ok (Some B) →
  is_rand256_vacuum (get_device_info_from_entity_id e hass) = Ok is_rand256 →
  go_to_command ent (Some [e]) x y spot hass =
    (rand256_payload ←
       (if negb (truthy_str spot)
        then xi ← int x; yi ← int y;
             Ok (JDict [("command", JStr "go_to");
                        ("spot_coordinates",
                         JDict [("x", JInt xi); ("y", JInt yi)])])
        else Ok (JDict [("command", JStr "go_to");
                        ("spot_id", JStr (default "" spot))]));
     payload ←
       (if negb is_rand256
        then xi ← int x; yi ← int y;
             Ok (JDict [("coordinates",
                         JDict [("x", JInt xi); ("y", JInt yi)])])
        else Ok rand256_payload);
     Ok (Some {| sd_entity_id := ent;
                 sd_topic :=
                   if negb is_rand256
                   then B +:+ "/GoToLocationCapability/go/set"
                   else B +:+ "/custom_command";
                 sd_payload := payload;
                 sd_firmware :=
                   if is_rand256 then "Rand256" else "Valetudo" |})).
Proof.
  intros HB Hfw. unfold go_to_command.
  cbn [index0 mbind res_bind]. rewrite HB. cbn [mbind res_bind].
  rewrite Hfw. cbn [mbind res_bind Str.of_option]. done.
Qed.

(** C3, as the code has it.  Addressed by device identifiers, the
    dispatch takes the first listed device, which must be registered,
    collects all its vacuum entities in registry order and builds the
    command for the first of them; further vacuum entities of the device
    are ignored, and no outcome reports an ambiguous target. *)
Theorem go_to_by_device_takes_first hass ent dids x y spot :
  dids ≠ [] →
  (∀ d ds dev, dids = d :: ds → dev_reg hass !! d = Some dev →
     from_device_ids_to_entity_ids dids hass
       = Ok (Some (vacuum_entities_of d (entity_reg hass)))) ∧
  (∀ e rest,
     from_device_ids_to_entity_ids dids hass = Ok (Some (e :: rest)) →
     generate_service_data_go_to ent (Some dids) x y spot hass
       = go_to_command ent (Some [e]) x y spot hass).
Proof.
  intros Hne. split.
  - intros d ds dev -> Hdev. by eapply from_device_ids_first.
  - intros e rest Hres. apply generate_on_target.
    by eapply targets_device.
Qed.

(** C3, as stated, fails: a device with two vacuum entities is
    dispatched, without error, to the first of them. *)
Lemma go_to_two_vacuums_first_match :
  from_device_ids_to_entity_ids ["dev1"] hass_two_vacuums
    = Ok (Some ["vacuum.tango"; "vacuum.tango_2"]) ∧
  generate_service_data_go_to None (Some ["dev1"]) (Int 100) (Int 200) None
      hass_two_vacuums
    = Ok (Some {| sd_entity_id := None;
                  sd_topic := "tango/GoToLocationCapability/go/set";
                  sd_payload :=
                    JDict [("coordinates",
                            JDict [("x", JInt 100); ("y", JInt 200)])];
                  sd_firmware := "Valetudo" |}).
Proof. by vm_compute. Qed.

Lemma go_to_by_device_takes_first_witness :
  generate_service_data_go_to None (Some ["dev1"]) (Int 100) (Int 200) None
      hass_two_vacuums
    = go_to_command None (Some ["vacuum.tango"]) (Int 100) (Int 200) None
        hass_two_vacuums.
Proof.
  destruct (go_to_by_device_takes_first hass_two_vacuums None ["dev1"]
              (Int 100) (Int 200) None) as [_ Hfirst]; [discriminate |].
  apply (Hfirst "vacuum.tango" ["vacuum.tango_2"]).
  by vm_compute.
Defined.

(** C4.  For a dispatch whose target runs Hypfer and has base topic
    [B], the command goes to [B/GoToLocationCapability/go/set] with the
    payload [{"coordinates": {"x": int(x), "y": int(y)}}], where [int]
    truncates toward zero; any integers pass, there is no bound on them. *)
Theorem go_to_hypfer hass ent dev x y spot e B xi yi :
  targets hass ent dev e →
  get_vacuum_mqtt_topic e hass = Ok (Some B) →
  is_rand256_vacuum (get_device_info_from_entity_id e hass) = Ok false →
  truncated x = Some xi →
  truncated y = Some yi →
  generate_service_data_go_to ent dev x y spot hass
    = Ok (Some {| sd_entity_id := ent;
                  sd_topic := B +:+ "/GoToLocationCapability/go/set";
                  sd_payload :=
                    JDict [("coordinates",
                            JDict [("x", JInt xi); ("y", JInt yi)])];
                  sd_firmware := "Valetudo" |}).
Proof.
  intros Ht HB Hfw Hx Hy.
  rewrite (generate_on_target _ _ _ _ _ _ _ Ht).
  rewrite (go_to_command_known _ _ _ _ _ _ _ _ HB Hfw).
  rewrite (int_truncated _ _ Hx), (int_truncated _ _ Hy).
  by destruct (truthy_str spot).
Qed.

(** The example of C4: coordinates (100, 200), base topic [tango]; and
    floats 100.75 and -200.5 truncate to 100 and -200. *)
Lemma go_to_hypfer_witness :
  generate_service_data_go_to (Some ["vacuum.tango"]) None
      (Int 100) (Int 200) None (hass_tango "Valetudo 2024.1")
    = Ok (Some {| sd_entity_id := Some ["vacuum.tango"];
                  sd_topic := "tango/GoToLocationCapability/go/set";
                  sd_payload :=
                    JDict [("coordinates",
                            JDict [("x", JInt 100); ("y", JInt 200)])];
                  sd_firmware := "Valetudo" |}) ∧
  generate_service_data_go_to None (Some ["dev1"])
      (Float (S754_finite false 403 (-2))) (Float (S754_finite true 401 (-1)))
      None (hass_tango "Valetudo 2024.1")
    = Ok (Some {| sd_entity_id := None;
                  sd_topic := "tango/GoToLocationCapability/go/set";
                  sd_payload :=
                    JDict [("coordinates",
                            JDict [("x", JInt 100); ("y", JInt (-200))])];
                  sd_firmware := "Valetudo" |}).
Proof.
  split.
  - apply (go_to_hypfer (hass_tango "Valetudo 2024.1") (Some ["vacuum.tango"])
             None (Int 100) (Int 200) None "vacuum.tango" "tango" 100 200).
    + by apply (targets_entity _ None "vacuum.tango" []).
    + by vm_compute.
    + by vm_compute.
    + reflexivity.
    + reflexivity.
  - apply (go_to_hypfer (hass_tango "Valetudo 2024.1") None (Some ["dev1"])
             (Float (S754_finite false 403 (-2)))
             (Float (S754_finite true 401 (-1)))
             None "vacuum.tango" "tango" 100 (-200)).
    + apply (targets_device _ None ["dev1"] "vacuum.tango" []);
        [discriminate | by vm_compute].
    + by vm_compute.
    + by vm_compute.
    + reflexivity.
    + reflexivity.
Defined.

(** C5.  For a dispatch whose target runs Rand256 and has base topic
    [B], the command goes to [B/custom_command]; with a spot identifier
    the payload is [{"command": "go_to", "spot_id": spot_id}], and with
    coordinates instead it is
    [{"command": "go_to", "spot_coordinates": {"x": int(x), "y": int(y)}}]. *)
Theorem go_to_rand256 hass ent dev x y spot e B :
  targets hass ent dev e →
  get_vacuum_mqtt_topic e hass = Ok (Some B) →
  is_rand256_vacuum (get_device_info_from_entity_id e hass) = Ok true →
  (∀ s, spot = Some s → s ≠ "" →
     generate_service_data_go_to ent dev x y spot hass
       = Ok (Some {| sd_entity_id := ent;
                     sd_topic := B +:+ "/custom_command";
                     sd_payload :=
                       JDict [("command", JStr "go_to"); ("spot_id", JStr s)];
                     sd_firmware := "Rand256" |})) ∧
  (∀ xi yi, truthy_str spot = false →
     truncated x = Some xi → truncated y = Some yi →
     generate_service_data_go_to ent dev x y spot hass
       = Ok (Some {| sd_entity_id := ent;
                     sd_topic := B +:+ "/custom_command";
                     sd_payload :=
                       JDict [("command", JStr "go_to");
                              ("spot_coordinates",
                               JDict [("x", JInt xi); ("y", JInt yi)])];
                     sd_firmware := "Rand256" |})).
Proof.
  intros Ht HB Hfw.
  rewrite (generate_on_target _ _ _ _ _ _ _ Ht).
  rewrite (go_to_command_known _ _ _ _ _ _ _ _ HB Hfw).
  split.
  - intros s -> Hs. by destruct s.
  - intros xi yi -> Hx Hy.
    by rewrite (int_truncated _ _ Hx), (int_truncated _ _ Hy).
Qed.

(** The example of C5: spot [kitchen] on base topic [tango], with no
    coordinates given; and coordinates with no spot. *)
Lemma go_to_rand256_witness :
  generate_service_data_go_to (Some ["vacuum.tango"]) None
      NoneNum NoneNum (Some "kitchen") (hass_tango "1.2.3-custom")
    = Ok (Some {| sd_entity_id := Some ["vacuum.tango"];
                  sd_topic := "tango/custom_command";
                  sd_payload :=
                    JDict [("command", JStr "go_to");
                           ("spot_id", JStr "kitchen")];
                  sd_firmware := "Rand256" |}) ∧
  generate_service_data_go_to (Some ["vacuum.tango"]) None
      (Int 100) (Int 200) None (hass_tango "1.2.3-custom")
    = Ok (Some {| sd_entity_id := Some ["vacuum.tango"];
                  sd_topic := "tango/custom_command";
                  sd_payload :=
                    JDict [("command", JStr "go_to");
                           ("spot_coordinates",
                            JDict [("x", JInt 100); ("y", JInt 200)])];
                  sd_firmware := "Rand256" |}).
Proof.
  split.
  - destruct (go_to_rand256 (hass_tango "1.2.3-custom") (Some ["vacuum.tango"])
                None NoneNum NoneNum (Some "kitchen") "vacuum.tango" "tango")
      as [Hspot _].
    + by apply (targets_entity _ None "vacuum.tango" []).
    + by vm_compute.
    + by vm_compute.
    + by apply (Hspot "kitchen").
  - destruct (go_to_rand256 (hass_tango "1.2.3-custom") (Some ["vacuum.tango"])
                None (Int 100) (Int 200) None "vacuum.tango" "tango")
      as [_ Hxy].
    + by apply (targets_entity _ None "vacuum.tango" []).
    + by vm_compute.
    + by vm_compute.
    + by apply (Hxy 100 200).
Defined.

End DispatchFacts.

(** ** Merging the options *)

Section OptionsFacts.

Context {V : Type}.
Implicit Types bk new acc : gmap string V.

Lemma merge_keys_present bk new keys : ∀ acc,
  (∀ k, k ∈ keys → is_Some (preferred bk new k)) →
  ∃ m, merge_keys bk new keys acc = Ok m ∧
       ∀ k, m !! k = if decide (k ∈ keys) then preferred bk new k
                     else acc !! k.
Proof.
  induction keys as [|key rest IH]; intros acc Hall.
  - exists acc. split; [done |]. intros k. by rewrite decide_False by set_solver.
  - destruct (Hall key) as [v Hv]; [by left |].
    destruct (IH (<[key:=v]> acc)) as (m & Hm & Hlook).
    { intros k Hk. apply Hall. by right. }
    exists m. split.
    + cbn [merge_keys]. unfold preferred in Hv.
      destruct (new !! key) as [v'|]; [injection Hv as -> | rewrite Hv]; done.
    + intros k. rewrite Hlook.
      destruct (decide (k ∈ rest)) as [Hin|Hnin].
      * by rewrite decide_True by set_solver.
      * destruct (decide (k = key)) as [->|Hne].
        -- rewrite decide_True by set_solver. by rewrite lookup_insert_eq.
        -- rewrite decide_False; [by rewrite lookup_insert_ne |].
           by intros [?|?]%elem_of_cons.
Qed.

Lemma merge_keys_missing bk new keys : ∀ acc,
  (∃ k, k ∈ keys ∧ preferred bk new k = None) →
  ∃ k, merge_keys bk new keys acc = Raise (KeyError k).
Proof.
  induction keys as [|key rest IH]; intros acc (k & Hin & Hk).
  - set_solver.
  - cbn [merge_keys].
    destruct (preferred bk new key) as [v|] eqn:Hkey.
    + assert (k ∈ rest) as Hrest.
      { apply elem_of_cons in Hin as [->|]; [congruence | done]. }
      destruct (IH (<[key:=v]> acc)) as [k' Hk']; [by exists k |].
      exists k'. unfold preferred in Hkey.
      destruct (new !! key) as [v'|]; [injection Hkey as -> | rewrite Hkey]; done.
    + exists key. unfold preferred in Hkey.
      destruct (new !! key); [done |]. by rewrite Hkey.
Qed.

Lemma update_options_generic keys bk new :
  ((∃ k, k ∈ keys ∧ new !! k = None ∧ bk !! k = None) →
     MqttVacuumCamera.update_options keys bk new = Ok bk) ∧
  ((∀ k, k ∈ keys → is_Some (new !! k) ∨ is_Some (bk !! k)) →
     ∃ m, MqttVacuumCamera.update_options keys bk new = Ok m ∧
          ∀ k, m !! k = if decide (k ∈ keys) then preferred bk new k
                        else None).
Proof.
  unfold MqttVacuumCamera.update_options. split.
  - intros (k & Hin & Hnew & Hbk).
    destruct (merge_keys_missing bk new keys ∅) as [k' ->]; [| done].
    exists k. split; [done |]. unfold preferred. by rewrite Hnew.
  - intros Hall.
    destruct (merge_keys_present bk new keys ∅) as (m & -> & Hlook).
    { intros k Hk. unfold preferred.
      destruct (Hall k Hk) as [[v ->]|Hbk]; [done |].
      by destruct (new !! k). }
    exists m. split; [done |]. intros k. rewrite Hlook.
    by case_decide.
Qed.

(** C10.  In both packages [update_options] never raises and never
    returns a partial merge.  If some key of the update list is in
    neither dictionary the result is [bk_options] itself; otherwise the
    result has exactly the keys of the list, each with the value of
    [new_options] when it has the key and of [bk_options] when not.
    ([KEYS] stands for [KEYS_TO_UPDATE] of the newer package.) *)
Theorem update_options_all_or_nothing (KEYS : list string) bk new :
  ((∃ k, k ∈ KEYS ∧ new !! k = None ∧ bk !! k = None) →
     MqttVacuumCamera.update_options KEYS bk new = Ok bk) ∧
  ((∀ k, k ∈ KEYS → is_Some (new !! k) ∨ is_Some (bk !! k)) →
     ∃ m, MqttVacuumCamera.update_options KEYS bk new = Ok m ∧
          ∀ k, m !! k = if decide (k ∈ KEYS) then preferred bk new k
                        else None) ∧
  ((∃ k, k ∈ ValetudoVacuumCamera.keys_to_update ∧
         new !! k = None ∧ bk !! k = None) →
     ValetudoVacuumCamera.update_options bk new = Ok bk) ∧
  ((∀ k, k ∈ ValetudoVacuumCamera.keys_to_update →
         is_Some (new !! k) ∨ is_Some (bk !! k)) →
     ∃ m, ValetudoVacuumCamera.update_options bk new = Ok m ∧
          ∀ k, m !! k =
               if decide (k ∈ ValetudoVacuumCamera.keys_to_update)
               then preferred bk new k else None).
Proof.
  destruct (update_options_generic KEYS bk new) as [H1 H2].
  destruct (update_options_generic ValetudoVacuumCamera.keys_to_update bk new)
    as [H3 H4].
  done.
Qed.

End OptionsFacts.

Lemma update_options_all_or_nothing_witness :
  MqttVacuumCamera.update_options ["rotate_image"; "margins"]
      ({[ "rotate_image" := 0 ]} : gmap string Z) {[ "aspect_ratio" := 1 ]}
    = Ok {[ "rotate_image" := 0 ]} ∧
  ∃ m, MqttVacuumCamera.update_options ["rotate_image"; "margins"]
         (<[ "margins" := 100 ]> {[ "rotate_image" := 0 ]} : gmap string Z)
         {[ "rotate_image" := 90 ]} = Ok m ∧
       m !! "rotate_image" = Some 90 ∧ m !! "margins" = Some 100 ∧
       m !! "aspect_ratio" = None.
Proof.
  split.
  - apply (update_options_all_or_nothing ["rotate_image"; "margins"]).
    exists "margins". split; [set_solver | by vm_compute].
  - destruct (update_options_all_or_nothing ["rotate_image"; "margins"]
                (<[ "margins" := 100 ]> {[ "rotate_image" := 0 ]} : gmap string Z)
                {[ "rotate_image" := 90 ]}) as (_ & Hmerge & _).
    destruct Hmerge as (m & Hm & Hlook).
    + intros k Hk. right.
      apply elem_of_cons in Hk as [->|Hk]; [eexists; by vm_compute |].
      apply list_elem_of_singleton in Hk as ->. eexists; by vm_compute.
    + exists m. split; [exact Hm |].
      rewrite !Hlook. by vm_compute.
Defined.

(** ** More on the connector: streams of messages and takes *)

Section ConnectorStreams.

Import ValetudoVacuumCamera.

(** What one message on the topic of cache [k] does to every field the
    accessors read. *)
Lemma callback_effect self msg k :
  routed self msg k →
  _mqtt_topic (on_message_callback self msg).1 = _mqtt_topic self ∧
  _img_payload (on_message_callback self msg).1
    = match k with
      | MapCache => Some (payload msg)
      | _ => _img_payload self
      end ∧
  _data_in (on_message_callback self msg).1
    = match k with
      | MapCache => true
      | _ => _data_in self
      end ∧
  _mqtt_vac_stat (on_message_callback self msg).1
    = match k with
      | StatusCache =>
          if truthy_bytes (payload msg) then
            match bytes_decode (payload msg) with
            | Ok text => Some text
            | Raise _ => _mqtt_vac_stat self
            end
          else _mqtt_vac_stat self
      | _ => _mqtt_vac_stat self
      end ∧
  _mqtt_vac_err (on_message_callback self msg).1
    = match k with
      | ErrorCache =>
          match bytes_decode (payload msg) with
          | Ok text => Some text
          | Raise _ => _mqtt_vac_err self
          end
      | _ => _mqtt_vac_err self
      end.
Proof.
  intros Hr. destruct k.
  - by rewrite (callback_map _ _ Hr).
  - rewrite (callback_status _ _ Hr). cbn zeta.
    by destruct (truthy_bytes (payload msg)), (bytes_decode (payload msg)).
  - rewrite (callback_error _ _ Hr). cbn zeta.
    by destruct (bytes_decode (payload msg)).
Qed.

Lemma callback_unrouted self msg :
  (∀ k, ¬ routed self msg k) →
  _mqtt_topic (on_message_callback self msg).1 = _mqtt_topic self ∧
  _img_payload (on_message_callback self msg).1 = _img_payload self ∧
  _data_in (on_message_callback self msg).1 = _data_in self ∧
  _mqtt_vac_stat (on_message_callback self msg).1 = _mqtt_vac_stat self ∧
  _mqtt_vac_err (on_message_callback self msg).1 = _mqtt_vac_err self.
Proof. intros Hnone. by rewrite (callback_other _ _ Hnone). Qed.

Lemma routed_same_topic a b msg k :
  _mqtt_topic a = _mqtt_topic b → routed a msg k → routed b msg k.
Proof. unfold routed. by intros ->. Qed.

(** X1.  Delivering the same message twice in a row leaves the connector
    exactly as delivering it once did, with the same outcome: a duplicate
    from the broker is harmless. *)
Theorem callback_duplicate_delivery self msg :
  on_message_callback (on_message_callback self msg).1 msg
    = on_message_callback self msg.
Proof.
  destruct (callback_cases self msg) as [[k Hr] | Hnone].
  - assert (routed (on_message_callback self msg).1 msg k) as Hr'
      by (eapply routed_same_topic; [| exact Hr];
          symmetry; apply callback_keeps_topic).
    destruct k.
    + rewrite (callback_map _ _ Hr'), (callback_map _ _ Hr). by destruct self.
    + rewrite (callback_status _ _ Hr'), (callback_status _ _ Hr). cbn zeta.
      destruct (truthy_bytes (payload msg)), (bytes_decode (payload msg));
        by destruct self.
    + rewrite (callback_error _ _ Hr'), (callback_error _ _ Hr). cbn zeta.
      destruct (bytes_decode (payload msg)); by destruct self.
  - assert (∀ k, ¬ routed (on_message_callback self msg).1 msg k) as Hnone'.
    { intros k Hr. apply (Hnone k). eapply routed_same_topic; [| exact Hr].
      apply callback_keeps_topic. }
    rewrite (callback_other _ _ Hnone'), (callback_other _ _ Hnone).
    by destruct self.
Qed.

(** X2.  Two messages for different caches may be handled in either
    order: all three caches end up the same. *)
Theorem callback_cross_topic_order self m1 m2 k1 k2 :
  routed self m1 k1 → routed self m2 k2 → k1 ≠ k2 →
  ∀ k, same_cache k (receive self [m1; m2]) (receive self [m2; m1]).
Proof.
  intros H1 H2 Hne k.
  change (receive self [m1; m2])
    with (on_message_callback (on_message_callback self m1).1 m2).1.
  change (receive self [m2; m1])
    with (on_message_callback (on_message_callback self m2).1 m1).1.
  assert (routed (on_message_callback self m1).1 m2 k2) as H2'
    by (eapply routed_same_topic; [| exact H2];
        symmetry; apply callback_keeps_topic).
  assert (routed (on_message_callback self m2).1 m1 k1) as H1'
    by (eapply routed_same_topic; [| exact H1];
        symmetry; apply callback_keeps_topic).
  destruct (callback_effect _ _ _ H1) as (_ & Hi1 & Hd1 & Hs1 & He1).
  destruct (callback_effect _ _ _ H2) as (_ & Hi2 & Hd2 & Hs2 & He2).
  destruct (callback_effect _ _ _ H1') as (_ & Hi1' & Hd1' & Hs1' & He1').
  destruct (callback_effect _ _ _ H2') as (_ & Hi2' & Hd2' & Hs2' & He2').
  destruct k; unfold same_cache;
    rewrite ?Hi2', ?Hd2', ?Hs2', ?He2', ?Hi1', ?Hd1', ?Hs1', ?He1',
            ?Hi1, ?Hd1, ?Hs1, ?He1, ?Hi2, ?Hd2, ?Hs2, ?He2;
    by destruct k1, k2.
Qed.

Lemma callback_cross_topic_order_witness :
  _mqtt_vac_stat
    (receive docked_robot
       [mkMsg "valetudo/robot/MapData/map-data-hass" [x89; x50];
        mkMsg "valetudo/robot/StatusStateAttribute/status"
              [x69; x64; x6c; x65]])
  = _mqtt_vac_stat
      (receive docked_robot
         [mkMsg "valetudo/robot/StatusStateAttribute/status"
                [x69; x64; x6c; x65];
          mkMsg "valetudo/robot/MapData/map-data-hass" [x89; x50]]).
Proof.
  apply (callback_cross_topic_order docked_robot
           (mkMsg "valetudo/robot/MapData/map-data-hass" [x89; x50])
           (mkMsg "valetudo/robot/StatusStateAttribute/status"
                  [x69; x64; x6c; x65])
           MapCache StatusCache eq_refl eq_refl) with (k := StatusCache).
  discriminate.
Defined.

(** A message that is not a stored status message leaves the status. *)
Lemma callback_keeps_status self msg :
  ¬ stores_status self msg →
  _mqtt_vac_stat (on_message_callback self msg).1 = _mqtt_vac_stat self.
Proof.
  intros Hnot.
  destruct (callback_cases self msg) as [[k Hr] | Hnone].
  - destruct (callback_effect _ _ _ Hr) as (_ & _ & _ & -> & _).
    destruct k; try done.
    destruct (truthy_bytes (payload msg)) eqn:Hne; [| done].
    unfold bytes_decode.
    destruct (utf8_valid (payload msg)) eqn:Hv; [| done].
    by destruct Hnot.
  - by destruct (callback_unrouted _ _ Hnone) as (_ & _ & _ & -> & _).
Qed.

Lemma callback_keeps_error self msg :
  ¬ stores_error self msg →
  _mqtt_vac_err (on_message_callback self msg).1 = _mqtt_vac_err self.
Proof.
  intros Hnot.
  destruct (callback_cases self msg) as [[k Hr] | Hnone].
  - destruct (callback_effect _ _ _ Hr) as (_ & _ & _ & _ & ->).
    destruct k; try done.
    unfold bytes_decode.
    destruct (utf8_valid (payload msg)) eqn:Hv; [| done].
    by destruct Hnot.
  - by destruct (callback_unrouted _ _ Hnone) as (_ & _ & _ & _ & ->).
Qed.

Lemma callback_keeps_map self msg :
  ¬ routed self msg MapCache →
  _img_payload (on_message_callback self msg).1 = _img_payload self.
Proof. intros Hnot. by destruct (callback_not_map _ _ Hnot) as [<- _]. Qed.

(** X3.  After any run of messages the status that [get_vacuum_status]
    returns is the text of the last message that arrived on the status
    topic with a non-empty, valid UTF-8 payload; with no such message it
    is what it was before.  Messages that fail to decode, empty ones and
    other topics do not disturb it. *)
Theorem receive_last_status self msgs :
  get_vacuum_status (receive self msgs)
    = match last (filter (stores_status self) msgs) with
      | Some m => Some (string_of_list_byte (payload m))
      | None => get_vacuum_status self
      end.
Proof.
  unfold get_vacuum_status.
  induction msgs as [|m msgs IH] using rev_ind; [done |].
  rewrite filter_app, receive_snoc.
  destruct (decide (stores_status self m)) as [Hs|Hns].
  - rewrite filter_cons_True, filter_nil, last_snoc by done.
    destruct Hs as (Hr & Hne & Hv).
    assert (routed (receive self msgs) m StatusCache) as Hr'
      by (eapply routed_same_topic; [| exact Hr];
          symmetry; apply receive_keeps_topic).
    destruct (callback_effect _ _ _ Hr') as (_ & _ & _ & -> & _).
    unfold bytes_decode. by rewrite Hne, Hv.
  - rewrite filter_cons_False, filter_nil, app_nil_r by done.
    rewrite callback_keeps_status; [done |].
    intros (Hr & Hne & Hv). apply Hns. split; [| done].
    eapply routed_same_topic; [| exact Hr]. apply receive_keeps_topic.
Qed.

(** X4.  After any run of messages the error text that
    [get_vacuum_error] returns is the text of the last message that
    arrived on the error-description topic with valid UTF-8, the empty
    text included; with no such message it is what it was before. *)
Theorem receive_last_error self msgs :
  get_vacuum_error (receive self msgs)
    = match last (filter (stores_error self) msgs) with
      | Some m => Some (string_of_list_byte (payload m))
      | None => get_vacuum_error self
      end.
Proof.
  unfold get_vacuum_error.
  induction msgs as [|m msgs IH] using rev_ind; [done |].
  rewrite filter_app, receive_snoc.
  destruct (decide (stores_error self m)) as [Hs|Hns].
  - rewrite filter_cons_True, filter_nil, last_snoc by done.
    destruct Hs as (Hr & Hv).
    assert (routed (receive self msgs) m ErrorCache) as Hr'
      by (eapply routed_same_topic; [| exact Hr];
          symmetry; apply receive_keeps_topic).
    destruct (callback_effect _ _ _ Hr') as (_ & _ & _ & _ & ->).
    unfold bytes_decode. by rewrite Hv.
  - rewrite filter_cons_False, filter_nil, app_nil_r by done.
    rewrite callback_keeps_error; [done |].
    intros (Hr & Hv). apply Hns. split; [| done].
    eapply routed_same_topic; [| exact Hr]. apply receive_keeps_topic.
Qed.

(** The cached payload after a run of messages, with or without a map
    message among them. *)
Lemma receive_img self msgs :
  _img_payload (receive self msgs)
    = match last (filter (λ m, routed self m MapCache) msgs) with
      | Some m => Some (payload m)
      | None => _img_payload self
      end.
Proof.
  induction msgs as [|m msgs IH] using rev_ind; [done |].
  rewrite filter_app, receive_snoc.
  destruct (decide (routed self m MapCache)) as [Hr|Hnr].
  - rewrite filter_cons_True, filter_nil, last_snoc by done.
    assert (routed (receive self msgs) m MapCache) as Hr'
      by (eapply routed_same_topic; [| exact Hr];
          symmetry; apply receive_keeps_topic).
    by destruct (callback_effect _ _ _ Hr') as (_ & -> & _).
  - rewrite filter_cons_False, filter_nil, app_nil_r by done.
    rewrite callback_keeps_map; [done |].
    intros Hr. apply Hnr.
    eapply routed_same_topic; [| exact Hr]. apply receive_keeps_topic.
Qed.

End ConnectorStreams.

Section ConnectorRuns.

Import ValetudoVacuumCamera.

Context {Json : Type}.
Variable dec : bytes → string → res (option Json).

Lemma run_snoc self evs ev :
  run dec self (evs ++ [ev]) = step dec (run dec self evs) ev.
Proof.
  unfold run. revert self.
  induction evs as [|ev' evs IH]; intros self; simpl; [done | apply IH].
Qed.

Lemma messages_snoc evs ev :
  messages (evs ++ [ev])
    = messages evs ++ match ev with Message msg => [msg] | Take _ => [] end.
Proof. unfold messages. rewrite omap_app. by destruct ev. Qed.

(** The callback reads nothing but the topic: connectors that agree on
    the topic and the caches still agree after the same message. *)
Lemma callback_congr a b msg :
  _mqtt_topic a = _mqtt_topic b → _img_payload a = _img_payload b →
  _mqtt_vac_stat a = _mqtt_vac_stat b → _mqtt_vac_err a = _mqtt_vac_err b →
  _mqtt_topic (on_message_callback a msg).1
    = _mqtt_topic (on_message_callback b msg).1 ∧
  _img_payload (on_message_callback a msg).1
    = _img_payload (on_message_callback b msg).1 ∧
  _mqtt_vac_stat (on_message_callback a msg).1
    = _mqtt_vac_stat (on_message_callback b msg).1 ∧
  _mqtt_vac_err (on_message_callback a msg).1
    = _mqtt_vac_err (on_message_callback b msg).1.
Proof.
  intros Ht Hi Hs He.
  destruct (callback_cases a msg) as [[k Hr] | Hnone].
  - pose proof (routed_same_topic _ _ _ _ Ht Hr) as Hr'.
    destruct (callback_effect _ _ _ Hr) as (-> & -> & _ & -> & ->).
    destruct (callback_effect _ _ _ Hr') as (-> & -> & _ & -> & ->).
    by rewrite Hi, Hs, He.
  - assert (∀ k, ¬ routed b msg k) as Hnone'.
    { intros k Hr. apply (Hnone k). by eapply routed_same_topic. }
    destruct (callback_unrouted _ _ Hnone) as (-> & -> & _ & -> & ->).
    by destruct (callback_unrouted _ _ Hnone') as (-> & -> & _ & -> & ->).
Qed.

(** [update_data] writes the flag and nothing else, and never raises it. *)
Lemma update_data_frame self process :
  _mqtt_topic (update_data dec self process).1 = _mqtt_topic self ∧
  _img_payload (update_data dec self process).1 = _img_payload self ∧
  _mqtt_vac_stat (update_data dec self process).1 = _mqtt_vac_stat self ∧
  _mqtt_vac_err (update_data dec self process).1 = _mqtt_vac_err self ∧
  (_data_in (update_data dec self process).1 = true → _data_in self = true).
Proof.
  unfold update_data.
  destruct (truthy_payload (_img_payload self)), process; try done.
  by destruct (dec _ _).
Qed.

Lemma run_caches self evs :
  _mqtt_topic (run dec self evs) = _mqtt_topic self ∧
  _img_payload (run dec self evs)
    = _img_payload (receive self (messages evs)) ∧
  get_vacuum_status (run dec self evs)
    = get_vacuum_status (receive self (messages evs)) ∧
  get_vacuum_error (run dec self evs)
    = get_vacuum_error (receive self (messages evs)).
Proof.
  unfold get_vacuum_status, get_vacuum_error.
  rewrite <- (receive_keeps_topic self (messages evs)).
  induction evs as [|ev evs (Ht & Hi & Hs & He)] using rev_ind; [done |].
  rewrite run_snoc, messages_snoc. destruct ev as [msg | process]; cbn [step].
  - rewrite receive_snoc. rewrite !receive_keeps_topic in *.
    rewrite <- (receive_keeps_topic self (messages evs)) in Ht.
    destruct (callback_congr _ _ msg Ht Hi Hs He) as (Ht' & -> & -> & ->).
    rewrite Ht'. by rewrite callback_keeps_topic, receive_keeps_topic.
  - rewrite app_nil_r.
    destruct (update_data_frame (run dec self evs) process)
      as (-> & -> & -> & -> & _).
    done.
Qed.

(** X5.  However calls of [update_data], in either mode and whatever the
    decoder does, are interleaved with the messages, the cached payload,
    the status and the error text are those the messages alone leave:
    taking never changes what is cached. *)
Theorem run_caches_from_messages self evs :
  _mqtt_topic (run dec self evs) = _mqtt_topic self ∧
  _img_payload (run dec self evs)
    = _img_payload (receive self (messages evs)) ∧
  get_vacuum_status (run dec self evs)
    = get_vacuum_status (receive self (messages evs)) ∧
  get_vacuum_error (run dec self evs)
    = get_vacuum_error (receive self (messages evs)).
Proof. apply run_caches. Qed.

(** The flag is only up while a payload is cached. *)
Lemma step_flag_payload self ev :
  (_data_in self = true → is_Some (_img_payload self)) →
  _data_in (step dec self ev) = true →
  is_Some (_img_payload (step dec self ev)).
Proof.
  intros Hinv. destruct ev as [msg | process]; cbn [step].
  - destruct (callback_cases self msg) as [[k Hr] | Hnone].
    + destruct (callback_effect _ _ _ Hr) as (_ & -> & -> & _).
      by destruct k.
    + by destruct (callback_unrouted _ _ Hnone) as (_ & -> & -> & _).
  - destruct (update_data_frame self process) as (_ & -> & _ & _ & Hflag).
    auto.
Qed.

Lemma run_flag_payload self evs :
  (_data_in self = true → is_Some (_img_payload self)) →
  _data_in (run dec self evs) = true →
  is_Some (_img_payload (run dec self evs)).
Proof.
  intros Hinv.
  induction evs as [|ev evs IH] using rev_ind; [done |].
  rewrite run_snoc. by apply step_flag_payload.
Qed.

Lemma run_flag_cached mqtt_topic evs :
  _data_in (run dec (init mqtt_topic) evs) = true →
  ∃ m, last (filter (λ m', routed (init mqtt_topic) m' MapCache)
                    (messages evs)) = Some m ∧
       _img_payload (run dec (init mqtt_topic) evs) = Some (payload m).
Proof.
  intros Hflag.
  apply run_flag_payload in Hflag as [p Hp]; [| done].
  destruct (run_caches (init mqtt_topic) evs) as (_ & Hi & _).
  rewrite Hi, receive_img in Hp. rewrite Hi, receive_img.
  destruct (last _) as [m|]; [by exists m | done].
Qed.

(** X6.  Starting from a fresh connector, whenever [is_data_available]
    answers [True] a map message has been received and the cached payload
    is that of the last one: the flag is never up over nothing. *)
Theorem run_available_means_cached mqtt_topic evs :
  is_data_available (run dec (init mqtt_topic) evs) = true →
  ∃ m, last (filter (λ m', routed (init mqtt_topic) m' MapCache)
                    (messages evs)) = Some m ∧
       _img_payload (run dec (init mqtt_topic) evs) = Some (payload m).
Proof. apply run_flag_cached. Qed.

(** X7.  A call of [update_data] that returns normally leaves nothing
    for [save_payload] to write: a snapshot is only saved between a map
    message and the next take. *)
Theorem save_payload_after_take self process cwd file_name result :
  (update_data dec self process).2 = Ok result →
  save_payload cwd (update_data dec self process).1 file_name = None.
Proof.
  unfold update_data, save_payload.
  destruct (truthy_payload (_img_payload self)) eqn:Hp, process; cbn.
  - destruct (dec _ _); [| done]. cbn. by rewrite Hp.
  - by rewrite Hp.
  - by rewrite Hp.
  - by rewrite Hp.
Qed.

(** X8.  Whatever [save_payload] writes, on a connector that started
    fresh, is the non-empty payload of the last map message received, and
    it goes to [mqtt_<file_name>.raw] under the snapshots path appended to
    the working directory. *)
Theorem save_payload_writes_last_map mqtt_topic evs cwd file_name path content :
  save_payload cwd (run dec (init mqtt_topic) evs) file_name
    = Some (path, content) →
  path = cwd +:+ "custom_components/valetudo_vacuum_camera/snapshots/mqtt_"
             +:+ file_name +:+ ".raw" ∧
  content ≠ [] ∧
  ∃ m, last (filter (λ m', routed (init mqtt_topic) m' MapCache)
                    (messages evs)) = Some m ∧
       content = payload m.
Proof.
  unfold save_payload.
  destruct (truthy_payload _) eqn:Hp; [| done].
  case_bool_decide as Hflag; [| done]. cbn. intros [= <- <-].
  destruct (run_flag_cached mqtt_topic evs Hflag) as (m & Hm & Hi).
  rewrite Hi in Hp |- *. cbn in *.
  split; [done |]. split; [by destruct (payload m) |]. by exists m.
Qed.

End ConnectorRuns.

Section ConnectorRunExamples.

Import ValetudoVacuumCamera.

Lemma run_available_means_cached_witness :
  ∃ m, last (filter (λ m', routed (init "valetudo/robot") m' MapCache)
               (messages
                  [Message (mkMsg "valetudo/robot/MapData/map-data-hass" [x01]);
                   Take true;
                   Message (mkMsg "valetudo/robot/MapData/map-data-hass"
                                  [x02; x03])])) = Some m ∧
       _img_payload
         (run echo_decoder (init "valetudo/robot")
            [Message (mkMsg "valetudo/robot/MapData/map-data-hass" [x01]);
             Take true;
             Message (mkMsg "valetudo/robot/MapData/map-data-hass"
                            [x02; x03])]) = Some (payload m).
Proof.
  apply (run_available_means_cached echo_decoder "valetudo/robot"
           [Message (mkMsg "valetudo/robot/MapData/map-data-hass" [x01]);
            Take true;
            Message (mkMsg "valetudo/robot/MapData/map-data-hass"
                           [x02; x03])]).
  reflexivity.
Defined.

Lemma save_payload_after_take_witness :
  save_payload "/config/"
    (update_data echo_decoder
       (receive (init "valetudo/robot")
          [mkMsg "valetudo/robot/MapData/map-data-hass" [x89; x50]]) true).1
    "robot" = None.
Proof.
  apply (save_payload_after_take echo_decoder
           (receive (init "valetudo/robot")
              [mkMsg "valetudo/robot/MapData/map-data-hass" [x89; x50]])
           true "/config/" "robot" (Some [x89; x50])).
  reflexivity.
Defined.

Lemma save_payload_writes_last_map_witness :
  [x02; x03] ≠ [] ∧
  ∃ m, last (filter (λ m', routed (init "valetudo/robot") m' MapCache)
               (messages
                  [Message (mkMsg "valetudo/robot/MapData/map-data-hass" [x01]);
                   Take false;
                   Message (mkMsg "valetudo/robot/MapData/map-data-hass"
                                  [x02; x03])])) = Some m ∧
       [x02; x03] = payload m.
Proof.
  apply (save_payload_writes_last_map echo_decoder "valetudo/robot"
           [Message (mkMsg "valetudo/robot/MapData/map-data-hass" [x01]);
            Take false;
            Message (mkMsg "valetudo/robot/MapData/map-data-hass" [x02; x03])]
           "/config/" "robot"
           "/config/custom_components/valetudo_vacuum_camera/snapshots/mqtt_robot.raw"
           [x02; x03]).
  reflexivity.
Defined.

End ConnectorRunExamples.

(** ** More on the dispatcher: topics, resolution and the shape of commands *)

Section TopicFacts.

Import Py MqttVacuumCamera.

(** [split] cuts a text into pieces free of the separator, and the text
    is its pieces joined: all but the last joined, then the separator,
    then the last. *)
Lemma split_decomp (sep : ascii) (s : string) :
  ∃ front last_part,
    split sep s = front ++ [last_part] ∧
    Str.contains sep last_part = false ∧
    s = match front with
        | [] => last_part
        | _ :: _ =>
            join (String sep EmptyString) front
            +:+ String sep EmptyString +:+ last_part
        end.
Proof.
  induction s as [|c s (front & last_part & Hsplit & Hlast & Hs)].
  - by exists [], EmptyString.
  - cbn [split]. destruct (Ascii.eqb c sep) eqn:Hc.
    + apply Ascii.eqb_eq in Hc as ->.
      exists (EmptyString :: front), last_part. rewrite Hsplit.
      split; [done |]. split; [done |].
      destruct front as [|f fs]; cbn; by rewrite Hs.
    + rewrite Hsplit. destruct front as [|f fs].
      * exists [], (String c last_part). cbn. rewrite Hc, Hlast.
        by rewrite Hs.
      * exists (String c f :: fs), last_part. cbn.
        split; [done |]. split; [done |].
        rewrite Hs. by destruct fs.
Qed.

(** X9.  The base topic that [get_vacuum_mqtt_topic] returns is the
    entity's first subscription topic with its last piece cut off: the
    subscription is the base topic, a slash and a piece without slash; a
    subscription without any slash gives the empty base topic. *)
Theorem get_vacuum_mqtt_topic_base e hass B :
  get_vacuum_mqtt_topic e hass = Ok (Some B) →
  ∃ full_topic others last_part,
    debug_info_entities hass !! e = Some (Some (full_topic :: others)) ∧
    Str.contains "/" last_part = false ∧
    (full_topic = B +:+ "/" +:+ last_part ∨ (full_topic = last_part ∧ B = "")).
Proof.
  unfold get_vacuum_mqtt_topic.
  destruct (debug_info_entities hass !! e) as [[[|full_topic others]|]|];
    try done.
  cbn. intros [= <-].
  destruct (split_decomp "/" full_topic)
    as (front & last_part & Hsplit & Hlast & Hfull).
  exists full_topic, others, last_part.
  split; [done |]. split; [done |].
  unfold drop_last. rewrite Hsplit, removelast_last.
  destruct front; [by right | by left].
Qed.

Lemma get_vacuum_mqtt_topic_base_witness :
  ∃ full_topic others last_part,
    debug_info_entities (hass_tango "Valetudo 2024.1") !! "vacuum.tango"
      = Some (Some (full_topic :: others)) ∧
    Str.contains "/" last_part = false ∧
    (full_topic = "tango" +:+ "/" +:+ last_part
     ∨ (full_topic = last_part ∧ "tango" = "")).
Proof.
  apply (get_vacuum_mqtt_topic_base "vacuum.tango"
           (hass_tango "Valetudo 2024.1") "tango").
  by vm_compute.
Defined.

(** X10.  Where the MQTT integration's data is in [hass.data], which is
    what a [HomeAssistant] value here stands for (without it the lookup
    [hass.data[GET_MQTT_DATA]] itself raises [KeyError], a case outside
    these registries), [get_vacuum_mqtt_topic] raises in one case only, an
    entity whose subscriptions are there but empty, and then [IndexError];
    an entity unknown to the MQTT debug info, or without subscriptions,
    gives [None] without an exception. *)
Theorem get_vacuum_mqtt_topic_failures e hass :
  (∀ err, get_vacuum_mqtt_topic e hass = Raise err ↔
          err = IndexError ∧ debug_info_entities hass !! e = Some (Some [])) ∧
  (get_vacuum_mqtt_topic e hass = Ok None ↔
     debug_info_entities hass !! e = None
     ∨ debug_info_entities hass !! e = Some None).
Proof.
  unfold get_vacuum_mqtt_topic.
  destruct (debug_info_entities hass !! e) as [[[|full_topic others]|]|];
    cbn; (split; [intros err; split | split]).
  - by intros [= <-].
  - by intros [-> _].
  - done.
  - by intros [|].
  - done.
  - by intros [_ [=]].
  - done.
  - by intros [|].
  - done.
  - by intros [_ [=]].
  - by right.
  - done.
  - done.
  - by intros [_ [=]].
  - by left.
  - done.
Qed.

End TopicFacts.

Section ResolutionFacts.

Import Py MqttVacuumCamera.

Lemma from_device_ids_cons hass d ds :
  from_device_ids_to_entity_ids (d :: ds) hass
    = match dev_reg hass !! d with
      | Some _ => Ok (Some (vacuum_entities_of d (entity_reg hass)))
      | None => Raise AttributeError
      end.
Proof.
  destruct (dev_reg hass !! d) as [dev|] eqn:Hdev.
  - by eapply from_device_ids_first.
  - cbn [from_device_ids_to_entity_ids]. by rewrite Hdev.
Qed.

(** X11.  Of the device identifiers passed to
    [from_device_ids_to_entity_ids] only the first is ever looked at: the
    result is that of the first alone.  If the first is not in the device
    registry the call raises [AttributeError], also when later ones are
    registered. *)
Theorem from_device_ids_only_first hass d ds :
  from_device_ids_to_entity_ids (d :: ds) hass
    = from_device_ids_to_entity_ids [d] hass ∧
  (dev_reg hass !! d = None →
   from_device_ids_to_entity_ids (d :: ds) hass = Raise AttributeError).
Proof.
  rewrite !from_device_ids_cons. split; [done |]. by intros ->.
Qed.

Lemma from_device_ids_only_first_witness :
  from_device_ids_to_entity_ids ["dev0"; "dev1"] hass_two_vacuums
    = Raise AttributeError.
Proof.
  apply (from_device_ids_only_first hass_two_vacuums "dev0" ["dev1"]).
  reflexivity.
Defined.

(** X12.  The list [from_device_ids_to_entity_ids] returns holds exactly
    the entity ids of the registry entries that belong to the first device
    and are in the [vacuum] domain: nothing of another device or another
    domain is ever returned. *)
Theorem from_device_ids_members hass d ds l :
  from_device_ids_to_entity_ids (d :: ds) hass = Ok (Some l) →
  ∀ e, e ∈ l ↔
       ∃ entry, entry ∈ entity_reg hass ∧ entity_id entry = e ∧
                device_id entry = Some d ∧ domain entry = "vacuum".
Proof.
  rewrite from_device_ids_cons.
  destruct (dev_reg hass !! d); [| done].
  intros [= <-] e. unfold vacuum_entities_of.
  rewrite list_elem_of_fmap. split.
  - intros (entry & -> & Hin). apply list_elem_of_filter in Hin as [[? ?] ?].
    by exists entry.
  - intros (entry & Hin & <- & Hd & Hv). exists entry. split; [done |].
    by apply list_elem_of_filter.
Qed.

Lemma from_device_ids_members_witness :
  "vacuum.tango_2" ∈ ["vacuum.tango"; "vacuum.tango_2"] ↔
  ∃ entry, entry ∈ entity_reg hass_two_vacuums ∧
           entity_id entry = "vacuum.tango_2" ∧
           device_id entry = Some "dev1" ∧ domain entry = "vacuum".
Proof.
  apply (from_device_ids_members hass_two_vacuums "dev1" []
           ["vacuum.tango"; "vacuum.tango_2"]).
  by vm_compute.
Defined.

(** A command that [go_to_command] returns, taken apart. *)
Lemma go_to_command_inv ent v x y spot hass o :
  go_to_command ent v x y spot hass = Ok o →
  ∃ e B b payload,
    index0 v = Ok e ∧
    get_vacuum_mqtt_topic e hass = Ok B ∧
    is_rand256_vacuum (get_device_info_from_entity_id e hass) = Ok b ∧
    o = Some {| sd_entity_id := ent;
                sd_topic :=
                  Str.of_option B
                  +:+ (if b then "/custom_command"
                       else "/GoToLocationCapability/go/set");
                sd_payload := payload;
                sd_firmware := if b then "Rand256" else "Valetudo" |} ∧
    if b then
      (truthy_str spot = true ∧
       payload = JDict [("command", JStr "go_to");
                        ("spot_id", JStr (default "" spot))])
      ∨ (truthy_str spot = false ∧
         ∃ xi yi, int x = Ok xi ∧ int y = Ok yi ∧
           payload = JDict [("command", JStr "go_to");
                            ("spot_coordinates",
                             JDict [("x", JInt xi); ("y", JInt yi)])])
    else
      ∃ xi yi, int x = Ok xi ∧ int y = Ok yi ∧
        payload = JDict [("coordinates",
                          JDict [("x", JInt xi); ("y", JInt yi)])].
Proof.
  unfold go_to_command.
  destruct (index0 v) as [e|] eqn:He; [| done]. cbn [mbind res_bind].
  destruct (get_vacuum_mqtt_topic e hass) as [B|] eqn:HB; [| done].
  cbn [mbind res_bind].
  destruct (is_rand256_vacuum (get_device_info_from_entity_id e hass))
    as [b|] eqn:Hb; [| done].
  cbn [mbind res_bind].
  destruct b, (truthy_str spot) eqn:Hspot; cbn [negb mbind res_bind].
  - intros [= <-]. exists e, B, true. eexists.
    do 4 (split; [reflexivity || done |]). by left.
  - destruct (int x) as [xi|] eqn:Hx; [| done]. cbn [mbind res_bind].
    destruct (int y) as [yi|] eqn:Hy; [| done]. cbn [mbind res_bind].
    intros [= <-]. exists e, B, true. eexists.
    do 4 (split; [reflexivity || done |]). right. split; [done |].
    by exists xi, yi.
  - destruct (int x) as [xi|] eqn:Hx; [| done]. cbn [mbind res_bind].
    destruct (int y) as [yi|] eqn:Hy; [| done]. cbn [mbind res_bind].
    intros [= <-]. exists e, B, false. eexists.
    do 4 (split; [reflexivity || done |]). by exists xi, yi.
  - destruct (int x) as [xi|] eqn:Hx; [| done]. cbn [mbind res_bind].
    destruct (int y) as [yi|] eqn:Hy; [| done]. cbn [mbind res_bind].
    intros [= <-]. exists e, B, false. eexists.
    do 4 (split; [reflexivity || done |]). by exists xi, yi.
Qed.

(** X13.  [generate_service_data_go_to] returns [None] exactly when it is
    given neither a device identifier nor an entity identifier (absent or
    empty); with an identifier it returns a command or raises. *)
Theorem go_to_none_iff_no_target ent dev x y spot hass :
  generate_service_data_go_to ent dev x y spot hass = Ok None ↔
  truthy_list dev = false ∧ truthy_list ent = false.
Proof.
  unfold generate_service_data_go_to. split.
  - destruct (truthy_list dev) eqn:Hdev.
    + destruct (from_device_ids_to_entity_ids _ hass) as [v|]; [| done].
      cbn [mbind res_bind]. intros H.
      by apply go_to_command_inv in H as (? & ? & ? & ? & _ & _ & _ & ? & _).
    + destruct (truthy_list ent) eqn:Hent; [| done]. cbn. intros H.
      by apply go_to_command_inv in H as (? & ? & ? & ? & _ & _ & _ & ? & _).
  - by intros [-> ->].
Qed.

(** X14.  Every command [generate_service_data_go_to] returns echoes
    the [entity_id] argument and is of one of three shapes: for Valetudo
    the go-to capability topic with a [coordinates] payload; for Rand256
    the custom-command topic with either a [spot_id] payload (a non-empty
    spot was given) or a [spot_coordinates] payload.  Firmware name, topic
    and payload always go together. *)
Theorem go_to_result_shapes ent dev x y spot hass r :
  generate_service_data_go_to ent dev x y spot hass = Ok (Some r) →
  sd_entity_id r = ent ∧
  ((sd_firmware r = "Valetudo" ∧
    ∃ B xi yi, int x = Ok xi ∧ int y = Ok yi ∧
      sd_topic r = B +:+ "/GoToLocationCapability/go/set" ∧
      sd_payload r = JDict [("coordinates",
                             JDict [("x", JInt xi); ("y", JInt yi)])])
   ∨ (sd_firmware r = "Rand256" ∧
      ∃ B, sd_topic r = B +:+ "/custom_command" ∧
        ((∃ s, spot = Some s ∧ s ≠ "" ∧
            sd_payload r = JDict [("command", JStr "go_to");
                                  ("spot_id", JStr s)])
         ∨ (truthy_str spot = false ∧
            ∃ xi yi, int x = Ok xi ∧ int y = Ok yi ∧
              sd_payload r = JDict [("command", JStr "go_to");
                                    ("spot_coordinates",
                                     JDict [("x", JInt xi);
                                            ("y", JInt yi)])])))).
Proof.
  unfold generate_service_data_go_to. intros H.
  assert (∃ v, go_to_command ent v x y spot hass = Ok (Some r)) as [v Hv].
  { destruct (truthy_list dev).
    - destruct (from_device_ids_to_entity_ids _ hass) as [v|]; [| done].
      by exists v.
    - destruct (truthy_list ent); [by exists ent | done]. }
  clear H.
  apply go_to_command_inv in Hv as (e & B & b & payload & _ & _ & _ & Hr & Hp).
  injection Hr as ->. cbn. split; [done |].
  destruct b.
  - right. split; [done |]. exists (Str.of_option B). split; [done |].
    destruct Hp as [[Hspot ->] | (Hspot & xi & yi & Hx & Hy & ->)].
    + left. destruct spot as [[|c s]|]; try done.
      exists (String c s). by repeat split.
    + right. split; [done |]. by exists xi, yi.
  - left. split; [done |]. destruct Hp as (xi & yi & Hx & Hy & ->).
    by exists (Str.of_option B), xi, yi.
Qed.

Lemma go_to_result_shapes_witness :
  sd_entity_id
    {| sd_entity_id := Some ["vacuum.tango"];
       sd_topic := "tango/custom_command";
       sd_payload := JDict [("command", JStr "go_to");
                            ("spot_id", JStr "kitchen")];
       sd_firmware := "Rand256" |} = Some ["vacuum.tango"].
Proof.
  apply (go_to_result_shapes (Some ["vacuum.tango"]) None NoneNum NoneNum
           (Some "kitchen") (hass_tango "1.2.3-custom")).
  by vm_compute.
Defined.

(** X15.  On a Valetudo (Hypfer) target the coordinates are mandatory
    and a spot identifier cannot stand in for them: whatever exception
    [int] raises on [x], or on [y] once [x] converted, is what the
    dispatch raises, with or without [spot_id]. *)
Theorem go_to_hypfer_needs_coordinates hass ent dev x y spot e B err :
  targets hass ent dev e →
  get_vacuum_mqtt_topic e hass = Ok B →
  is_rand256_vacuum (get_device_info_from_entity_id e hass) = Ok false →
  int x = Raise err ∨ ((∃ xi, int x = Ok xi) ∧ int y = Raise err) →
  generate_service_data_go_to ent dev x y spot hass = Raise err.
Proof.
  intros Ht HB Hfw Hxy.
  rewrite (generate_on_target _ _ _ _ _ _ _ Ht).
  unfold go_to_command. cbn [index0 mbind res_bind].
  rewrite HB. cbn [mbind res_bind]. rewrite Hfw. cbn [mbind res_bind negb].
  destruct Hxy as [Hx | [[xi Hx] Hy]]; rewrite Hx; [| rewrite Hy];
    by destruct (truthy_str spot).
Qed.

Lemma go_to_hypfer_needs_coordinates_witness :
  generate_service_data_go_to (Some ["vacuum.tango"]) None NoneNum NoneNum
      (Some "kitchen") (hass_tango "Valetudo 2024.1")
    = Raise TypeError.
Proof.
  apply (go_to_hypfer_needs_coordinates (hass_tango "Valetudo 2024.1")
           (Some ["vacuum.tango"]) None NoneNum NoneNum (Some "kitchen")
           "vacuum.tango" (Some "tango") TypeError).
  - by apply (targets_entity _ None "vacuum.tango" []).
  - by vm_compute.
  - by vm_compute.
  - by left.
Defined.

(** X16.  A target the MQTT debug info does not know, or knows without
    subscriptions, is not an error for the dispatch: when the coordinates
    convert, a command is returned, with the text [None] in place of the
    base topic. *)
Theorem go_to_without_mqtt_info hass ent dev x y spot e b xi yi :
  targets hass ent dev e →
  get_vacuum_mqtt_topic e hass = Ok None →
  is_rand256_vacuum (get_device_info_from_entity_id e hass) = Ok b →
  truncated x = Some xi →
  truncated y = Some yi →
  ∃ r, generate_service_data_go_to ent dev x y spot hass = Ok (Some r) ∧
       sd_entity_id r = ent ∧
       sd_topic r = (if b then "None/custom_command"
                     else "None/GoToLocationCapability/go/set") ∧
       sd_firmware r = (if b then "Rand256" else "Valetudo").
Proof.
  intros Ht HB Hfw Hx Hy.
  rewrite (generate_on_target _ _ _ _ _ _ _ Ht).
  unfold go_to_command. cbn [index0 mbind res_bind].
  rewrite HB. cbn [mbind res_bind]. rewrite Hfw. cbn [mbind res_bind].
  rewrite (int_truncated _ _ Hx), (int_truncated _ _ Hy).
  destruct b, (truthy_str spot); cbn [negb mbind res_bind];
    eexists; (split; [reflexivity |]); by repeat split.
Qed.

End ResolutionFacts.

(** ** Unique ids, file names and topic sets *)

Section NamingFacts.

Import Py MqttVacuumCamera.

Example re_sub_camera_end_samples :
  re_sub_camera_end "tango_camera" = "tango" ∧
  re_sub_camera_end ("tango_camera" +:+ newline) = "tango" +:+ newline ∧
  re_sub_camera_end "tango_camera_front" = "tango_camera_front" ∧
  re_sub_camera_end "a_camera_camera" = "a_camera" ∧
  extract_file_name "Tango_Camera" = "tango_camera".
Proof. by vm_compute. Qed.

Lemma split_no_sep sep s : Str.contains sep s = false → split sep s = [s].
Proof.
  induction s as [|c s IH]; simpl; [done |].
  destruct (Ascii.eqb c sep); [done |]. simpl. intros Hs. by rewrite IH.
Qed.

Lemma split_app_sep sep a s :
  Str.contains sep a = false →
  split sep (a +:+ String sep s) = a :: split sep s.
Proof.
  induction a as [|c a IH]; simpl.
  - intros _. by rewrite Ascii.eqb_refl.
  - destruct (Ascii.eqb c sep); [done |]. simpl. intros Ha. by rewrite IH.
Qed.

Lemma split_nonempty sep s : split sep s ≠ [].
Proof.
  destruct s as [|c s]; cbn; [done |].
  destruct (Ascii.eqb c sep); [done |]. by destruct (split sep s).
Qed.

Lemma length_append (a b : string) :
  String.length (a +:+ b) = (String.length a + String.length b)%nat.
Proof. induction a as [|c a IH]; simpl; [done | by f_equal]. Qed.

Lemma re_sub_camera_end_unfold s :
  re_sub_camera_end s =
    if bool_decide (s = "_camera") then EmptyString
    else if bool_decide (s = "_camera" +:+ newline) then newline
    else match s with
         | EmptyString => EmptyString
         | String c s' => String c (re_sub_camera_end s')
         end.
Proof. by destruct s. Qed.

Lemma re_sub_camera_end_suffix (a : string) :
  re_sub_camera_end (a +:+ "_camera") = a.
Proof.
  induction a as [|c a IH]; [done |].
  rewrite re_sub_camera_end_unfold.
  rewrite bool_decide_eq_false_2.
  2:{ intros H. apply (f_equal String.length) in H.
      cbn in H. rewrite length_append in H. cbn in H. lia. }
  rewrite bool_decide_eq_false_2.
  2:{ intros H. pose proof (f_equal String.length H) as Hlen.
      change (String.length ("_camera" +:+ newline)) with 8%nat in Hlen.
      rewrite length_append in Hlen. cbn in Hlen.
      destruct a; [done | cbn in Hlen; lia]. }
  change (String c a +:+ "_camera") with (String c (a +:+ "_camera")).
  cbn iota. by rewrite IH.
Qed.

Lemma lower_ascii_idemp c : Str.lower_ascii (Str.lower_ascii c) = Str.lower_ascii c.
Proof.
  unfold Str.lower_ascii.
  destruct ((65 <=? N_of_ascii c)%N && (N_of_ascii c <=? 90)%N) eqn:Hc.
  - apply andb_true_iff in Hc as [Hlo Hhi].
    apply N.leb_le in Hlo, Hhi.
    rewrite N_ascii_embedding by lia.
    rewrite (proj2 (andb_false_iff _ _)); [done |].
    right. apply N.leb_gt. lia.
  - by rewrite Hc.
Qed.

Lemma lower_idemp s : Str.lower (Str.lower s) = Str.lower s.
Proof.
  induction s as [|c s IH]; cbn; [done |].
  by rewrite lower_ascii_idemp, IH.
Qed.

(** X17.  [get_vacuum_unique_id_from_mqtt_topic] names the camera after
    the second piece of the topic, lower-cased, followed by [_camera],
    whatever follows that piece; a topic without a slash has no second
    piece and raises [IndexError]. *)
Theorem unique_id_from_second_piece t :
  (Str.contains "/" t = false →
   get_vacuum_unique_id_from_mqtt_topic t = Raise IndexError) ∧
  (∀ root name rest,
     Str.is_ascii t = true →
     Str.contains "/" root = false → Str.contains "/" name = false →
     t = root +:+ "/" +:+ name ∨ t = root +:+ "/" +:+ name +:+ "/" +:+ rest →
     get_vacuum_unique_id_from_mqtt_topic t
       = Ok (Str.lower name +:+ "_camera")).
Proof.
  unfold get_vacuum_unique_id_from_mqtt_topic. split.
  - intros Hno. by rewrite split_no_sep.
  - intros root name rest _ Hroot Hname [-> | ->].
    + change (root +:+ "/" +:+ name) with (root +:+ String "/" name).
      rewrite (split_app_sep "/" root name Hroot).
      by rewrite split_no_sep.
    + change (root +:+ "/" +:+ name +:+ "/" +:+ rest)
        with (root +:+ String "/" (name +:+ String "/" rest)).
      rewrite (split_app_sep "/" root _ Hroot).
      by rewrite (split_app_sep "/" name rest Hname).
Qed.

Lemma unique_id_from_second_piece_witness :
  get_vacuum_unique_id_from_mqtt_topic "robot" = Raise IndexError ∧
  get_vacuum_unique_id_from_mqtt_topic "valetudo/Tango/MapData"
    = Ok "tango_camera".
Proof.
  split.
  - apply (unique_id_from_second_piece "robot"). reflexivity.
  - apply (unique_id_from_second_piece "valetudo/Tango/MapData")
      with (root := "valetudo") (name := "Tango") (rest := "MapData");
      [reflexivity | reflexivity | reflexivity | by right].
Defined.

(** X18.  [extract_file_name] undoes what
    [get_vacuum_unique_id_from_mqtt_topic] adds: from the unique id of a
    topic it gives back the lower-cased second piece of the topic. *)
Theorem extract_file_name_of_unique_id t unique_id :
  Str.is_ascii t = true →
  get_vacuum_unique_id_from_mqtt_topic t = Ok unique_id →
  ∃ part, split "/" t !! 1%nat = Some part ∧
          unique_id = Str.lower part +:+ "_camera" ∧
          extract_file_name unique_id = Str.lower part.
Proof.
  intros _. unfold get_vacuum_unique_id_from_mqtt_topic.
  destruct (split "/" t !! 1%nat) as [part|]; [| done].
  intros [= <-]. exists part. split; [done |]. split; [done |].
  unfold extract_file_name. cbn zeta.
  by rewrite re_sub_camera_end_suffix, lower_idemp.
Qed.

Lemma extract_file_name_of_unique_id_witness :
  ∃ part, split "/" "valetudo/Tango/MapData" !! 1%nat = Some part ∧
          "tango_camera" = Str.lower part +:+ "_camera" ∧
          extract_file_name "tango_camera" = Str.lower part.
Proof.
  apply (extract_file_name_of_unique_id "valetudo/Tango/MapData"
           "tango_camera"); reflexivity.
Defined.

End NamingFacts.

Section TopicSetFacts.

Import Py MqttVacuumCamera.

Lemma size_prefixed (base_topic : string) (suffixes : gset string) :
  size (set_map (λ suffix, base_topic +:+ suffix) suffixes : gset string)
    = size suffixes.
Proof.
  induction suffixes as [|x X Hx IH] using set_ind_L.
  - by rewrite set_map_empty, !size_empty.
  - rewrite set_map_union_L, set_map_singleton_L.
    rewrite !size_union, !size_singleton, IH; [done | set_solver |].
    intros y Hy1 Hy2. apply elem_of_singleton in Hy1 as ->.
    apply elem_of_map in Hy2 as (x' & Heq & Hx').
    apply append_inj_l in Heq as ->. done.
Qed.

(** X19.  A topic is in the set [build_full_topic_set] returns exactly
    when it is the base topic followed by one of the suffixes, or it is
    the additional topic and that one is a non-empty string: an empty
    [add_topic] adds nothing. *)
Theorem build_full_topic_set_members base_topic suffixes add_topic t :
  t ∈ build_full_topic_set base_topic suffixes add_topic ↔
  (∃ suffix, suffix ∈ suffixes ∧ t = base_topic +:+ suffix)
  ∨ (add_topic = Some t ∧ t ≠ "").
Proof.
  unfold build_full_topic_set. cbn zeta.
  destruct add_topic as [[|c a]|]; cbn [truthy_str Str.truthy default].
  - rewrite elem_of_map. split.
    + intros (x & -> & Hx). left. by exists x.
    + intros [(x & Hx & ->) | [[= <-] Hne]]; [by exists x | done].
  - rewrite elem_of_union, elem_of_map, elem_of_singleton. split.
    + intros [(x & -> & Hx) | ->]; [left; by exists x | by right].
    + intros [(x & Hx & ->) | [[= <-] _]]; [left; by exists x | by right].
  - rewrite elem_of_map. split.
    + intros (x & -> & Hx). left. by exists x.
    + intros [(x & Hx & ->) | [[=] _]]. by exists x.
Qed.

(** X20.  Prefixing the base topic never makes two suffixes collide:
    without an additional topic the set of full topics has as many
    elements as the set of suffixes, and an additional topic adds at most
    one. *)
Theorem build_full_topic_set_size base_topic suffixes add_topic :
  size (build_full_topic_set base_topic suffixes None) = size suffixes ∧
  (size suffixes
     ≤ size (build_full_topic_set base_topic suffixes add_topic)
     ≤ S (size suffixes))%nat.
Proof.
  unfold build_full_topic_set. cbn zeta. cbn [truthy_str].
  split; [apply size_prefixed |].
  destruct (truthy_str add_topic).
  - split.
    + rewrite <- (size_prefixed base_topic suffixes) at 1.
      apply subseteq_size, union_subseteq_l.
    + rewrite size_union_alt, size_prefixed.
      assert (size ({[default "" add_topic]}
                    ∖ set_map (λ suffix, base_topic +:+ suffix) suffixes
                    : gset string) ≤ 1)%nat as Hle.
      { etrans; [apply subseteq_size, subseteq_difference_l; reflexivity |].
        by rewrite size_singleton. }
      lia.
  - rewrite size_prefixed. lia.
Qed.

End TopicSetFacts.

Section ClassifierStability.

Import MqttVacuumCamera.

Lemma append_assoc (a b c : string) : (a +:+ b) +:+ c = a +:+ (b +:+ c).
Proof.
  induction a as [|x a IH]; [done |].
  change (String x ((a +:+ b) +:+ c) = String x (a +:+ (b +:+ c))).
  by rewrite IH.
Qed.

(** X21.  A Hypfer verdict survives whatever follows the version text: if
    a software version classifies as Hypfer, so does the same version
    with any text appended; and a version of fewer than eight characters
    is never Hypfer. *)
Theorem is_rand256_vacuum_prefix_stable v :
  (is_rand256_vacuum (Some (mkDevice (Some v))) = Ok false →
   ∀ w, is_rand256_vacuum (Some (mkDevice (Some (v +:+ w)))) = Ok false) ∧
  ((String.length v < 8)%nat →
   is_rand256_vacuum (Some (mkDevice (Some v))) = Ok true).
Proof.
  unfold is_rand256_vacuum. cbn [sw_version Str.of_option]. split.
  - destruct (Str.startswith (Str.lower v) "valetudo") eqn:Hv; [| done].
    intros _ w.
    apply startswith_split in Hv as [tl Htl].
    by rewrite lower_app, Htl, append_assoc, startswith_app.
  - intros Hlen.
    destruct (Str.startswith (Str.lower v) "valetudo") eqn:Hv; [| done].
    apply startswith_split in Hv as [tl Htl].
    assert (String.length (Str.lower v) = String.length v) as Hl.
    { clear. induction v as [|c v IH]; simpl; [done | by f_equal]. }
    rewrite <- Hl, Htl in Hlen.
    change ("valetudo" +:+ tl) with
      (String "v" (String "a" (String "l" (String "e" (String "t"
         (String "u" (String "d" (String "o" tl)))))))) in Hlen.
    cbn in Hlen. lia.
Qed.

Lemma is_rand256_vacuum_prefix_stable_witness :
  is_rand256_vacuum (Some (mkDevice (Some ("VALETUDO" +:+ " 2024.06.0-nightly"))))
    = Ok false ∧
  is_rand256_vacuum (Some (mkDevice (Some "Valetud"))) = Ok true.
Proof.
  split.
  - apply (is_rand256_vacuum_prefix_stable "VALETUDO"). reflexivity.
  - apply (is_rand256_vacuum_prefix_stable "Valetud"). cbn. lia.
Defined.

End ClassifierStability.

Section OptionsMore.

Context {V : Type}.
Implicit Types bk new : gmap string V.

Lemma keys_dichotomy bk new (keys : list string) :
  (∃ k, k ∈ keys ∧ new !! k = None ∧ bk !! k = None)
  ∨ (∀ k, k ∈ keys → is_Some (new !! k) ∨ is_Some (bk !! k)).
Proof.
  induction keys as [|key rest [(k & Hin & Hk) | Hall]].
  - right. intros k Hk. by apply elem_of_nil in Hk.
  - left. exists k. split; [by right | done].
  - destruct (new !! key) as [v|] eqn:Hnew.
    + right. intros k [->|Hk]%elem_of_cons; [left; by eexists | auto].
    + destruct (bk !! key) as [v|] eqn:Hbk.
      * right. intros k [->|Hk]%elem_of_cons; [right; by eexists | auto].
      * left. exists key. split; [by left | done].
Qed.

Lemma update_options_idem_generic keys bk new :
  ∃ m, MqttVacuumCamera.update_options keys bk new = Ok m ∧
       MqttVacuumCamera.update_options keys m new = Ok m.
Proof.
  destruct (update_options_generic keys bk new) as [Hmiss Hall].
  destruct (keys_dichotomy bk new keys) as [Hk | Hk].
  - exists bk. by rewrite (Hmiss Hk).
  - destruct (Hall Hk) as (m & Hm & Hlook). exists m. split; [done |].
    destruct (update_options_generic keys m new) as [_ Hall'].
    destruct Hall' as (m' & Hm' & Hlook').
    { intros k Hin. specialize (Hk k Hin). specialize (Hlook k).
      rewrite decide_True in Hlook by done. unfold preferred in Hlook.
      destruct (new !! k); [left; by eexists | right].
      rewrite Hlook. by destruct Hk as [[? [=]] | ?]. }
    rewrite Hm'. f_equal. apply map_eq. intros k.
    rewrite Hlook', Hlook. case_decide; [| done].
    unfold preferred. rewrite Hlook, decide_True by done.
    unfold preferred. by destruct (new !! k).
Qed.

(** X22.  [update_options], in both packages, always returns a
    dictionary, and merging the same new options into its own result
    changes nothing: the merge is idempotent. *)
Theorem update_options_idempotent (KEYS : list string) bk new :
  (∃ m, MqttVacuumCamera.update_options KEYS bk new = Ok m ∧
        MqttVacuumCamera.update_options KEYS m new = Ok m) ∧
  (∃ m, ValetudoVacuumCamera.update_options bk new = Ok m ∧
        ValetudoVacuumCamera.update_options m new = Ok m).
Proof.
  split; [apply update_options_idem_generic |].
  apply (update_options_idem_generic ValetudoVacuumCamera.keys_to_update).
Qed.

End OptionsMore.

Section RegistryFacts.

Import Py MqttVacuumCamera.

Lemma go_to_without_mqtt_info_witness :
  ∃ r, generate_service_data_go_to (Some ["vacuum.tango"]) None
         (Int 100) (Int 200) None hass_no_mqtt = Ok (Some r) ∧
       sd_entity_id r = Some ["vacuum.tango"] ∧
       sd_topic r = "None/GoToLocationCapability/go/set" ∧
       sd_firmware r = "Valetudo".
Proof.
  apply (go_to_without_mqtt_info hass_no_mqtt (Some ["vacuum.tango"]) None
           (Int 100) (Int 200) None "vacuum.tango" false 100 200).
  - by apply (targets_entity _ None "vacuum.tango" []).
  - by vm_compute.
  - by vm_compute.
  - reflexivity.
  - reflexivity.
Defined.

Lemma device_of_first_match_none e devs entries :
  (∀ entry, entry ∈ entries → entity_id entry = e → domain entry ≠ "vacuum") →
  device_of_first_match e devs entries = None.
Proof.
  induction entries as [|en rest IH]; intros Hall; [done |].
  cbn [device_of_first_match]. rewrite bool_decide_eq_false_2.
  - apply IH. intros entry Hin. apply Hall. by right.
  - intros [He Hd]. by apply (Hall en); [left | |].
Qed.

(** X23.  A dispatch addressed to an entity that the entity registry does
    not list in the [vacuum] domain, a camera for instance, raises
    [AttributeError] once its topic lookup has returned: no command is
    built for it. *)
Theorem go_to_non_vacuum_entity hass ent dev x y spot e B :
  targets hass ent dev e →
  get_vacuum_mqtt_topic e hass = Ok B →
  (∀ entry, entry ∈ entity_reg hass → entity_id entry = e →
            domain entry ≠ "vacuum") →
  generate_service_data_go_to ent dev x y spot hass = Raise AttributeError.
Proof.
  intros Ht HB Hnone.
  rewrite (generate_on_target _ _ _ _ _ _ _ Ht).
  unfold go_to_command. cbn [index0 mbind res_bind].
  rewrite HB. cbn [mbind res_bind].
  unfold get_device_info_from_entity_id.
  by rewrite (device_of_first_match_none _ _ _ Hnone).
Qed.

Lemma go_to_non_vacuum_entity_witness :
  generate_service_data_go_to (Some ["camera.tango"]) None
      (Int 100) (Int 200) None hass_no_mqtt
    = Raise AttributeError.
Proof.
  apply (go_to_non_vacuum_entity hass_no_mqtt (Some ["camera.tango"]) None
           (Int 100) (Int 200) None "camera.tango" None).
  - by apply (targets_entity _ None "camera.tango" []).
  - by vm_compute.
  - intros entry Hin He.
    apply elem_of_cons in Hin as [-> | Hin]; [discriminate |].
    apply list_elem_of_singleton in Hin as ->. discriminate He.
Defined.

Lemma device_of_first_match_unique e d devs entries :
  NoDup (entity_id <$> entries) →
  (∃ entry, entry ∈ entries ∧ entity_id entry = e ∧
            device_id entry = Some d ∧ domain entry = "vacuum") →
  device_of_first_match e devs entries = devs !! d.
Proof.
  induction entries as [|en rest IH]; intros Hnd (entry & Hin & He & Hd & Hv).
  - by apply elem_of_nil in Hin.
  - rewrite fmap_cons in Hnd. apply NoDup_cons in Hnd as [Hfresh Hnd].
    cbn [device_of_first_match].
    apply elem_of_cons in Hin as [<- | Hin].
    + rewrite bool_decide_eq_true_2 by done. by rewrite Hd.
    + rewrite bool_decide_eq_false_2.
      * apply IH; [done |]. by exists entry.
      * intros [He' _]. apply Hfresh. rewrite He', <- He.
        by apply list_elem_of_fmap_2.
Qed.

(** X24.  In a registry where entity ids are unique, resolving a device
    to its vacuum entities and looking the device of any of them up again
    leads back to the same device: the firmware is judged on the device
    that was asked for. *)
Theorem device_entity_device_round_trip hass d ds l e :
  NoDup (entity_id <$> entity_reg hass) →
  from_device_ids_to_entity_ids (d :: ds) hass = Ok (Some l) →
  e ∈ l →
  get_device_info_from_entity_id e hass = dev_reg hass !! d ∧
  is_Some (dev_reg hass !! d).
Proof.
  intros Hnd. rewrite from_device_ids_cons.
  destruct (dev_reg hass !! d) as [dev|] eqn:Hdev; [| done].
  intros [= <-] He. split; [| by eexists].
  unfold get_device_info_from_entity_id. rewrite <- Hdev.
  apply device_of_first_match_unique; [done |].
  unfold vacuum_entities_of in He.
  apply list_elem_of_fmap in He as (entry & -> & Hin).
  apply list_elem_of_filter in Hin as [[? ?] ?]. by exists entry.
Qed.

Lemma device_entity_device_round_trip_witness :
  get_device_info_from_entity_id "vacuum.tango_2" hass_two_vacuums
    = dev_reg hass_two_vacuums !! "dev1" ∧
  is_Some (dev_reg hass_two_vacuums !! "dev1").
Proof.
  apply (device_entity_device_round_trip hass_two_vacuums "dev1" []
           ["vacuum.tango"; "vacuum.tango_2"] "vacuum.tango_2").
  - apply (bool_decide_unpack _). by vm_compute.
  - by vm_compute.
  - apply (bool_decide_unpack _). by vm_compute.
Defined.

End RegistryFacts.
